(** * The volume super block of weed/storage/volume_super_block.go

    A shallow embedding of [SuperBlock.BlockSize], [SuperBlock.Bytes],
    [Volume.maybeWriteSuperBlock] and [ReadSuperBlock], and the properties
    of the header format proved about them.

    Conventions.  A Go [byte] is a [Byte.byte]; a [uint16] is a [Z] whose
    conversions write the wrap-around out; a [[]byte] is a [list byte].
    A Go [(value, error)] pair is a [result].  [glog.Fatalf] ends the
    process, so a function that may call it returns a [Run]. *)

From Stdlib Require Import ZArith List Bool Lia.
From Stdlib Require Import Strings.String Strings.Byte.
Import ListNotations.
Open Scope Z_scope.

(** ** Bytes, slices and fixed-width integers *)

Definition Z_of_byte (b : byte) : Z := Z.of_N (Byte.to_N b).

(** Go's conversion [byte(v)] of an integer: the low eight bits. *)
Definition byte_of_Z (z : Z) : byte :=
  match Byte.of_N (Z.to_N (z mod 256)) with
  | Some b => b
  | None => x00
  end.

(** Go's conversion [uint16(n)]. *)
Definition uint16 (z : Z) : Z := z mod 65536.

(** [make([]byte, n)]: a zeroed buffer. *)
Definition make (n : nat) : list byte := repeat x00 n.

(** [copy(buf[off:off+len(bs)], bs)] for a slice inside [buf]. *)
Definition store (off : nat) (bs buf : list byte) : list byte :=
  firstn off buf ++ bs ++ skipn (off + List.length bs) buf.

(** [buf[i]] *)
Definition at_ (i : nat) (buf : list byte) : byte := nth i buf x00.

Inductive ByteOrder : Type := BigEndian | LittleEndian.

(** Modelled from the spec: [util.Uint16toBytes] and [util.BytesToUint16]
    (package weed/util) are not under src/.  The spec (sections 3 and 6)
    says the two 16-bit fields are a "fixed-width unsigned 16-bit" integer
    with "a single, consistent byte order used by both encode and decode";
    the order itself is a parameter. *)
Definition Uint16toBytes (o : ByteOrder) (v : Z) : list byte :=
  match o with
  | BigEndian => [byte_of_Z (Z.shiftr v 8); byte_of_Z v]
  | LittleEndian => [byte_of_Z v; byte_of_Z (Z.shiftr v 8)]
  end.

Definition BytesToUint16 (o : ByteOrder) (b : list byte) : Z :=
  match o with
  | BigEndian => Z.shiftl (Z_of_byte (at_ 0 b)) 8 + Z_of_byte (at_ 1 b)
  | LittleEndian => Z.shiftl (Z_of_byte (at_ 1 b)) 8 + Z_of_byte (at_ 0 b)
  end.

(** ** Errors and outcomes *)

(** The values of Go's [error] that this file produces or inspects. *)
Inductive error : Type :=
| ErrEOF                                   (* io.EOF *)
| ErrPermission                            (* os.ErrPermission *)
| ErrInvalid                               (* os.ErrInvalid *)
| ErrIO (msg : string)                     (* any other error of package os *)
| ErrCodec (msg : string)                  (* an error of a value codec *)
| ErrCannotSeek (name : string) (cause : error)
| ErrCannotReadSuperBlock (name : string) (cause : error)
| ErrCannotReadReplicaType (cause : error)
| ErrCannotReadExtra (name : string) (cause : error).

(** [os.IsPermission]; the errors built with [fmt.Errorf] and [%v] hold
    only the text of their cause, so they are not permission errors. *)
Definition IsPermission (e : error) : bool :=
  match e with
  | ErrPermission => true
  | _ => false
  end.

Inductive result (A : Type) : Type :=
| Ok (a : A)
| Err (e : error).
Arguments Ok {A} a.
Arguments Err {A} e.

(** Why the process ended instead of returning. *)
Inductive Exit : Type :=
| FatalCannotMarshal (e : error)   (* "cannot marshal super block extra" *)
| FatalExtraTooBig (size : Z)      (* "super block extra size is %d bigger than %d" *)
| PanicNilFile.                    (* a method of a nil *os.File that reads it *)

Inductive Run (A : Type) : Type :=
| Returns (a : A)
| Exits (x : Exit).
Arguments Returns {A} a.
Arguments Exits {A} x.

(** ** The file abstraction (package os)

    An [*os.File] is the content of the file it is open on, the offset of
    the handle, and the failure each kind of call reports on this handle,
    if any.  A handle opened without write permission has a [writeFault]. *)
Record File : Type := mkFile {
  Name : string;
  data : list byte;
  offset : nat;
  statFault : option error;
  seekFault : option error;
  readFault : option error;
  writeFault : option error
}.

Definition set_offset (f : File) (n : nat) : File :=
  mkFile (Name f) (data f) n (statFault f) (seekFault f) (readFault f) (writeFault f).

Definition set_data (f : File) (d : list byte) (n : nat) : File :=
  mkFile (Name f) d n (statFault f) (seekFault f) (readFault f) (writeFault f).

(** The calls made on files, in order. *)
Inductive Event : Type :=
| EvStat (name : string)
| EvSeek (name : string) (off : nat)
| EvRead (name : string) (len : nat)
| EvWrite (name : string) (b : list byte)
| EvCreate (name : string).

(** [f.Stat()] followed by [stat.Size()]. *)
Definition Stat (f : File) : result Z :=
  match statFault f with
  | Some e => Err e
  | None => Ok (Z.of_nat (List.length (data f)))
  end.

(** [f.Seek(off, 0)] *)
Definition Seek (f : File) (off : nat) : option error * File :=
  match seekFault f with
  | Some e => (Some e, f)
  | None => (None, set_offset f off)
  end.

(** [f.Read(b)] with [len(b) = len]: the bytes stored at the front of [b],
    whose number is the count [Read] returns, and the error.  As package os
    documents it, [Read] reads up to [len] bytes and reports [io.EOF] only
    when it read none at the end of the file. *)
Definition Read (f : File) (len : nat) : list byte * option error * File :=
  match readFault f with
  | Some e => ([], Some e, f)
  | None =>
      let got := firstn len (skipn (offset f) (data f)) in
      match got, len with
      | [], S _ => ([], Some ErrEOF, f)
      | _, _ => (got, None, set_offset f (offset f + List.length got)%nat)
      end
  end.

(** [f.Write(b)]: at the offset of the handle, filling a gap with zeros. *)
Definition Write (f : File) (b : list byte) : option error * File :=
  match writeFault f with
  | Some e => (Some e, f)
  | None =>
      let d := data f ++ make (offset f - List.length (data f)) in
      (None, set_data f (store (offset f) b d) (offset f + List.length b)%nat)
  end.

(** ** The collaborators

    The replica-placement, time-to-live and extension codecs are other
    packages; their types and functions are the fields of a class, and so
    is [os.Create]. *)
Class Collaborators : Type := {
  order : ByteOrder;
  (* type ReplicaPlacement, rp.Byte() and NewReplicaPlacementFromByte *)
  ReplicaPlacement : Type;
  Byte : ReplicaPlacement -> byte;
  NewReplicaPlacementFromByte : byte -> result ReplicaPlacement;
  (* type TTL, t.ToBytes(output) and LoadTTLFromBytes(input), on two bytes *)
  TTL : Type;
  ToBytes : TTL -> byte * byte;
  LoadTTLFromBytes : byte * byte -> TTL;
  (* master_pb.SuperBlockExtra with proto.Marshal and proto.Unmarshal *)
  SuperBlockExtra : Type;
  Marshal : SuperBlockExtra -> result (list byte);
  Unmarshal : list byte -> result SuperBlockExtra;
  (* os.Create *)
  Create : string -> result File
}.

(** ** The super block *)

Definition Version : Type := byte.

(** Modelled from the spec: the constants [Version1], [Version2],
    [Version3] and [CurrentVersion] are declared outside src/.  The spec
    (section 3) gives the recognized values 1, 2 and 3, and section 4.2
    says the version written is "the latest known format version". *)
Definition Version1 : Version := x01.
Definition Version2 : Version := x02.
Definition Version3 : Version := x03.
Definition CurrentVersion : Version := Version3.

Definition _SuperBlockSize : nat := 8.

Section SuperBlock.
Context {C : Collaborators}.

(** The fields [ReplicaPlacement] of [SuperBlock] and [SuperBlock] of
    [Volume] carry an underscore: their names are those of their types. *)
Record SuperBlock : Type := mkSuperBlock {
  version : Version;
  ReplicaPlacement_ : ReplicaPlacement;
  Ttl : TTL;
  CompactRevision : Z;
  Extra : option SuperBlockExtra;
  extraSize : Z
}.

Definition set_version (s : SuperBlock) (v : Version) : SuperBlock :=
  mkSuperBlock v (ReplicaPlacement_ s) (Ttl s) (CompactRevision s) (Extra s) (extraSize s).

Definition set_extraSize (s : SuperBlock) (n : Z) : SuperBlock :=
  mkSuperBlock (version s) (ReplicaPlacement_ s) (Ttl s) (CompactRevision s) (Extra s) n.

Definition set_Extra (s : SuperBlock) (x : option SuperBlockExtra) : SuperBlock :=
  mkSuperBlock (version s) (ReplicaPlacement_ s) (Ttl s) (CompactRevision s) x (extraSize s).

Definition BlockSize (s : SuperBlock) : Z :=
  if Byte.eqb (version s) Version2 || Byte.eqb (version s) Version3
  then Z.of_nat _SuperBlockSize + extraSize s
  else Z.of_nat _SuperBlockSize.

(** The eight bytes [Bytes] fills before it looks at [Extra]. *)
Definition fixedHeader (s : SuperBlock) : list byte :=
  let header := make _SuperBlockSize in
  let header := store 0 [version s] header in
  let header := store 1 [Byte (ReplicaPlacement_ s)] header in
  let header := store 2 [fst (ToBytes (Ttl s)); snd (ToBytes (Ttl s))] header in
  store 4 (Uint16toBytes order (CompactRevision s)) header.

(** [s.Bytes()]: the bytes returned and the super block after the call,
    whose [extraSize] the call may have set. *)
Definition Bytes (s : SuperBlock) : Run (list byte * SuperBlock) :=
  let header := fixedHeader s in
  match Extra s with
  | Some extra =>
      match Marshal extra with
      | Err err => Exits (FatalCannotMarshal err)
      | Ok extraData =>
          let extraSize := Z.of_nat (List.length extraData) in
          if extraSize >? 256 * 256 - 2 then Exits (FatalExtraTooBig extraSize)
          else
            let s := set_extraSize s (uint16 extraSize) in
            let header := store 6 (Uint16toBytes order (SuperBlock.extraSize s)) header in
            Returns (header ++ extraData, s)
      end
  | None => Returns (header, s)
  end.

(** ** The volume *)

(** [dataFile] is a [*os.File]: [None] is the nil pointer. *)
Record Volume : Type := mkVolume {
  dataFile : option File;
  SuperBlock_ : SuperBlock;
  readOnly : bool
}.

(** [v.maybeWriteSuperBlock()]: what the call returns (or how the process
    ended), the volume after it and the calls it made on files. *)
Definition maybeWriteSuperBlock (v : Volume)
  : Run (option error) * Volume * list Event :=
  match dataFile v with
  | None =>
      (* Stat of a nil file reports ErrInvalid; the log line then reads
         the name of the nil file *)
      (Exits PanicNilFile, v, [])
  | Some f =>
      match Stat f with
      | Err e => (Returns (Some e), v, [EvStat (Name f)])
      | Ok size =>
          if size =? 0 then
            let sb := set_version (SuperBlock_ v) CurrentVersion in
            match Bytes sb with
            | Exits x =>
                (Exits x, mkVolume (Some f) sb (readOnly v), [EvStat (Name f)])
            | Returns (b, sb) =>
                let '(e, f1) := Write f b in
                let tr := [EvStat (Name f); EvWrite (Name f) b] in
                match e with
                | Some e1 =>
                    if IsPermission e1 then
                      (* read-only, but zero length - recreate it! *)
                      match Create (Name f1) with
                      | Err e2 =>
                          (Returns (Some e2), mkVolume None sb (readOnly v),
                           tr ++ [EvCreate (Name f1)])
                      | Ok f2 =>
                          match Bytes sb with
                          | Exits x =>
                              (Exits x, mkVolume (Some f2) sb (readOnly v),
                               tr ++ [EvCreate (Name f1)])
                          | Returns (b2, sb) =>
                              let '(e, f3) := Write f2 b2 in
                              let tr := tr ++ [EvCreate (Name f1); EvWrite (Name f2) b2] in
                              match e with
                              | None => (Returns None, mkVolume (Some f3) sb false, tr)
                              | Some e3 =>
                                  (Returns (Some e3), mkVolume (Some f3) sb (readOnly v), tr)
                              end
                          end
                      end
                    else (Returns (Some e1), mkVolume (Some f1) sb (readOnly v), tr)
                | None => (Returns None, mkVolume (Some f1) sb (readOnly v), tr)
                end
            end
          else (Returns None, v, [EvStat (Name f)])
      end
  end.

(** [ReadSuperBlock(dataFile)]: the super block or the error, the file
    handle after the call and the calls made on it.  The buffer given to
    [proto.Unmarshal] is the one [make] returned: nothing is stored in it
    before the call. *)
Definition ReadSuperBlock (dataFile : File)
  : result SuperBlock * File * list Event :=
  let '(e, f1) := Seek dataFile 0 in
  match e with
  | Some e => (Err (ErrCannotSeek (Name dataFile) e), f1, [EvSeek (Name dataFile) 0])
  | None =>
      let header := make _SuperBlockSize in
      let '(got, e, f2) := Read f1 (List.length header) in
      let header := store 0 got header in
      let tr := [EvSeek (Name dataFile) 0; EvRead (Name dataFile) _SuperBlockSize] in
      match e with
      | Some e => (Err (ErrCannotReadSuperBlock (Name dataFile) e), f2, tr)
      | None =>
          match NewReplicaPlacementFromByte (at_ 1 header) with
          | Err e => (Err (ErrCannotReadReplicaType e), f2, tr)
          | Ok rp =>
              let ttl := LoadTTLFromBytes (at_ 2 header, at_ 3 header) in
              let compactRevision := BytesToUint16 order (firstn 2 (skipn 4 header)) in
              let extraSize := BytesToUint16 order (firstn 2 (skipn 6 header)) in
              let sb := mkSuperBlock (at_ 0 header) rp ttl compactRevision None extraSize in
              if extraSize >? 0 then
                (* read more *)
                let extraData := make (Z.to_nat extraSize) in
                match Unmarshal extraData with
                | Err e => (Err (ErrCannotReadExtra (Name dataFile) e), f2, tr)
                | Ok extra => (Ok (set_Extra sb (Some extra)), f2, tr)
                end
              else (Ok sb, f2, tr)
          end
      end
  end.

(** [b] decodes to [h]: [ReadSuperBlock] returns [h] on every file whose
    content is [b] and whose seek and read succeed. *)
Definition Decodes (b : list byte) (h : SuperBlock) : Prop :=
  forall f : File,
    data f = b -> seekFault f = None -> readFault f = None ->
    fst (fst (ReadSuperBlock f)) = Ok h.

(** The round trip of a super block: [Bytes] returns, and its bytes decode
    to the super block with the length of the serialized extension as
    [extraSize]. *)
Definition RoundTrip (h : SuperBlock) : Prop :=
  exists b h',
    Bytes h = Returns (b, h') /\
    Decodes b (set_extraSize h (Z.of_nat (List.length (skipn 8 b)))).

End SuperBlock.

(** ** Stand-ins for the collaborators

    Small codecs with the contracts the header code relies on, to run the
    definitions on concrete headers and files. *)
Module Doubles.

(** A replica placement "xyz": the three counts, each at most 2, as the
    decimal digits of one byte (000, 001, 002, 010, ...). *)
Record Placement : Type := mkPlacement {
  DiffDataCenterCount : Z;
  DiffRackCount : Z;
  SameRackCount : Z
}.

Definition placementByte (rp : Placement) : byte :=
  byte_of_Z (DiffDataCenterCount rp * 100 + DiffRackCount rp * 10 + SameRackCount rp).

Definition placementFromByte (b : byte) : result Placement :=
  let n := Z_of_byte b in
  let rp := mkPlacement (n / 100) (n / 10 mod 10) (n mod 10) in
  if (DiffDataCenterCount rp <=? 2) && (DiffRackCount rp <=? 2) && (SameRackCount rp <=? 2)
  then Ok rp
  else Err (ErrCodec "unknown replication type").

(** The extension is its payload: it serializes to itself. *)
Definition Payload : Type := list byte.

(** A file just created: empty, writable. *)
Definition created (name : string) : File :=
  mkFile name [] 0 None None None None.

Definition collaborators (o : ByteOrder) (create : string -> result File)
  : Collaborators :=
  {| order := o;
     ReplicaPlacement := Placement;
     Byte := placementByte;
     NewReplicaPlacementFromByte := placementFromByte;
     TTL := byte * byte;
     ToBytes := fun t => t;
     LoadTTLFromBytes := fun b => b;
     SuperBlockExtra := Payload;
     Marshal := fun x => Ok x;
     Unmarshal := fun d => Ok d;
     Create := create |}.

(** Big-endian integers and an [os.Create] that succeeds. *)
Definition std : Collaborators := collaborators BigEndian (fun name => Ok (created name)).

Definition rp000 : Placement := mkPlacement 0 0 0.

(** A regular file with the given content, freshly opened. *)
Definition fileOf (name : string) (d : list byte) : File :=
  mkFile name d 0 None None None None.

(** A super block over the stand-ins: placement 000 and the empty TTL. *)
Definition superBlock (v : Version) (compactRevision : Z) (extra : option Payload)
    (extraSize : Z) : @SuperBlock std :=
  @mkSuperBlock std v rp000 (x00, x00) compactRevision extra extraSize.

(** The same where [os.Create] hands out [f]. *)
Definition superBlockAt (f : result File) (v : Version) (compactRevision : Z)
    (extra : option Payload) (extraSize : Z)
  : @SuperBlock (collaborators BigEndian (fun _ => f)) :=
  @mkSuperBlock (collaborators BigEndian (fun _ => f))
    v rp000 (x00, x00) compactRevision extra extraSize.

(** A handle on an empty file that was opened without write permission. *)
Definition unwritable (name : string) : File :=
  mkFile name [] 0 None None None (Some ErrPermission).

(** Big-endian integers and an [os.Create] that hands out [f]. *)
Definition recreating (f : result File) : Collaborators :=
  collaborators BigEndian (fun _ => f).

End Doubles.

(** * Properties *)

(** ** Bytes and 16-bit integers *)

Lemma Z_of_byte_range (b : byte) : 0 <= Z_of_byte b < 256.
Proof.
  unfold Z_of_byte. pose proof (Byte.to_N_bounded b) as H. lia.
Qed.

Lemma byte_of_Z_of_byte (b : byte) : byte_of_Z (Z_of_byte b) = b.
Proof.
  unfold byte_of_Z. rewrite Z.mod_small by apply Z_of_byte_range.
  unfold Z_of_byte. rewrite N2Z.id, Byte.of_to_N. reflexivity.
Qed.

Lemma Z_of_byte_of_Z (z : Z) : Z_of_byte (byte_of_Z z) = z mod 256.
Proof.
  unfold byte_of_Z, Z_of_byte.
  assert (Hr : 0 <= z mod 256 < 256) by (apply Z.mod_pos_bound; lia).
  destruct (Byte.of_N (Z.to_N (z mod 256))) as [b|] eqn:E.
  - apply Byte.to_of_N in E. rewrite E. lia.
  - apply Byte.of_N_None_iff in E. lia.
Qed.

Lemma byte_of_Z_0 : byte_of_Z 0 = x00.
Proof. reflexivity. Qed.

Lemma Uint16toBytes_length (o : ByteOrder) (v : Z) :
  List.length (Uint16toBytes o v) = 2%nat.
Proof. destruct o; reflexivity. Qed.

Lemma Uint16toBytes_0 (o : ByteOrder) : Uint16toBytes o 0 = [x00; x00].
Proof. destruct o; reflexivity. Qed.

Lemma BytesToUint16_Uint16toBytes (o : ByteOrder) (v : Z) :
  BytesToUint16 o (Uint16toBytes o v) = v mod 65536.
Proof.
  destruct o; unfold BytesToUint16, Uint16toBytes, at_; cbn [nth];
    rewrite !Z_of_byte_of_Z, Z.shiftl_mul_pow2, Z.shiftr_div_pow2 by lia;
    change (2 ^ 8) with 256;
    pose proof (Z.div_mod v 65536); pose proof (Z.mod_pos_bound v 65536);
    pose proof (Z.div_mod v 256); pose proof (Z.mod_pos_bound v 256);
    pose proof (Z.div_mod (v / 256) 256); pose proof (Z.mod_pos_bound (v / 256) 256);
    lia.
Qed.

Lemma BytesToUint16_range (o : ByteOrder) (b : list byte) :
  0 <= BytesToUint16 o b < 65536.
Proof.
  destruct o; unfold BytesToUint16; rewrite Z.shiftl_mul_pow2 by lia;
    change (2 ^ 8) with 256;
    pose proof (Z_of_byte_range (at_ 0 b)); pose proof (Z_of_byte_range (at_ 1 b)); lia.
Qed.

(** ** The encoder *)

Section Encoder.
Context {C : Collaborators}.

Lemma fixedHeader_eq (s : SuperBlock) :
  fixedHeader s =
  [version s; Byte (ReplicaPlacement_ s); fst (ToBytes (Ttl s)); snd (ToBytes (Ttl s))]
    ++ Uint16toBytes order (CompactRevision s) ++ [x00; x00].
Proof.
  unfold fixedHeader, store, make, _SuperBlockSize.
  destruct order; reflexivity.
Qed.

Lemma fixedHeader_length (s : SuperBlock) : List.length (fixedHeader s) = 8%nat.
Proof. rewrite fixedHeader_eq. destruct order; reflexivity. Qed.

Lemma store_extraSize (s : SuperBlock) (n : Z) :
  store 6 (Uint16toBytes order n) (fixedHeader s) =
  [version s; Byte (ReplicaPlacement_ s); fst (ToBytes (Ttl s)); snd (ToBytes (Ttl s))]
    ++ Uint16toBytes order (CompactRevision s) ++ Uint16toBytes order n.
Proof.
  rewrite fixedHeader_eq. unfold store. destruct order; reflexivity.
Qed.

(** [Bytes] on a super block without extension. *)
Lemma Bytes_no_extra (s : SuperBlock) :
  Extra s = None -> Bytes s = Returns (fixedHeader s, s).
Proof. intros H. unfold Bytes. rewrite H. reflexivity. Qed.

(** [Bytes] on a super block whose extension fits. *)
Lemma Bytes_extra (s : SuperBlock) (extra : SuperBlockExtra) (extraData : list byte) :
  Extra s = Some extra ->
  Marshal extra = Ok extraData ->
  Z.of_nat (List.length extraData) <= 65534 ->
  Bytes s =
  Returns
    ([version s; Byte (ReplicaPlacement_ s); fst (ToBytes (Ttl s)); snd (ToBytes (Ttl s))]
       ++ Uint16toBytes order (CompactRevision s)
       ++ Uint16toBytes order (Z.of_nat (List.length extraData))
       ++ extraData,
     set_extraSize s (Z.of_nat (List.length extraData))).
Proof.
  intros HE HM Hle. unfold Bytes. rewrite HE, HM.
  change (256 * 256 - 2) with 65534.
  destruct (Z.of_nat (List.length extraData) >? 65534) eqn:G; [lia|].
  unfold uint16. rewrite Z.mod_small by lia.
  cbn [extraSize set_extraSize].
  rewrite store_extraSize. cbn [version ReplicaPlacement_ Ttl CompactRevision set_extraSize].
  rewrite <- !app_assoc. reflexivity.
Qed.

(** [Bytes] on a super block whose extension is too large. *)
Lemma Bytes_too_big (s : SuperBlock) (extra : SuperBlockExtra) (extraData : list byte) :
  Extra s = Some extra ->
  Marshal extra = Ok extraData ->
  65534 < Z.of_nat (List.length extraData) ->
  Bytes s = Exits (FatalExtraTooBig (Z.of_nat (List.length extraData))).
Proof.
  intros HE HM Hgt. unfold Bytes. rewrite HE, HM.
  change (256 * 256 - 2) with 65534.
  destruct (Z.of_nat (List.length extraData) >? 65534) eqn:G; [reflexivity|lia].
Qed.

(** The cases in which [Bytes] returns. *)
Lemma Bytes_returns_inv (s s' : SuperBlock) (b : list byte) :
  Bytes s = Returns (b, s') ->
  (Extra s = None /\ b = fixedHeader s /\ s' = s) \/
  (exists extra extraData,
     Extra s = Some extra /\ Marshal extra = Ok extraData /\
     Z.of_nat (List.length extraData) <= 65534 /\
     b = [version s; Byte (ReplicaPlacement_ s); fst (ToBytes (Ttl s)); snd (ToBytes (Ttl s))]
           ++ Uint16toBytes order (CompactRevision s)
           ++ Uint16toBytes order (Z.of_nat (List.length extraData))
           ++ extraData /\
     s' = set_extraSize s (Z.of_nat (List.length extraData))).
Proof.
  intros H. destruct (Extra s) as [extra|] eqn:HE.
  - right. destruct (Marshal extra) as [extraData|err] eqn:HM.
    + destruct (Z_le_gt_dec (Z.of_nat (List.length extraData)) 65534) as [Hle|Hgt].
      * rewrite (Bytes_extra s extra extraData HE HM Hle) in H.
        injection H as <- <-. exists extra, extraData. auto.
      * rewrite (Bytes_too_big s extra extraData HE HM) in H by lia. discriminate.
    + unfold Bytes in H. rewrite HE, HM in H. discriminate.
  - left. rewrite (Bytes_no_extra s HE) in H. injection H as <- <-. auto.
Qed.

(** Encoding again what [Bytes] left gives the same bytes and changes
    nothing more. *)
Lemma Bytes_again (s s' : SuperBlock) (b : list byte) :
  Bytes s = Returns (b, s') -> Bytes s' = Returns (b, s').
Proof.
  intros H. destruct (Bytes_returns_inv s s' b H)
    as [(HE & -> & ->)|(extra & extraData & HE & HM & Hle & -> & ->)].
  - apply Bytes_no_extra, HE.
  - rewrite (Bytes_extra _ extra extraData) by assumption. reflexivity.
Qed.

(** The length of what [Bytes] returns: eight bytes and the serialized
    extension, whatever the version. *)
Lemma Bytes_length (s s' : SuperBlock) (b : list byte) :
  Bytes s = Returns (b, s') ->
  Z.of_nat (List.length b) =
  match Extra s with
  | None => 8
  | Some _ => 8 + extraSize s'
  end.
Proof.
  intros H. destruct (Bytes_returns_inv s s' b H)
    as [(HE & -> & ->)|(extra & extraData & HE & HM & Hle & -> & ->)]; rewrite HE.
  - rewrite fixedHeader_length. reflexivity.
  - cbn [extraSize set_extraSize]. rewrite !length_app, !Uint16toBytes_length.
    cbn [List.length]. lia.
Qed.

(** [BlockSize] counts the extension at versions 2 and 3 only. *)
Lemma BlockSize_cases (s : SuperBlock) :
  BlockSize s =
  if Byte.eqb (version s) Version2 || Byte.eqb (version s) Version3
  then 8 + extraSize s
  else 8.
Proof. reflexivity. Qed.

(** At versions 2 and 3, [BlockSize] after [Bytes] is the number of bytes
    returned as soon as an extension is present. *)
Lemma BlockSize_after_Bytes (s s' : SuperBlock) (b : list byte) :
  Bytes s = Returns (b, s') ->
  Extra s <> None ->
  version s = Version2 \/ version s = Version3 ->
  BlockSize s' = Z.of_nat (List.length b).
Proof.
  intros H HE Hv. rewrite (Bytes_length s s' b H).
  destruct (Extra s); [|congruence].
  destruct (Bytes_returns_inv s s' b H)
    as [(_ & _ & ->)|(_ & extraData & _ & _ & _ & _ & ->)];
    unfold BlockSize; cbn [version set_extraSize extraSize];
    destruct Hv as [-> | ->]; reflexivity.
Qed.

(** [Bytes] writes the version into byte 0 and leaves it in the super
    block. *)
Lemma Bytes_version (s s' : SuperBlock) (b : list byte) :
  Bytes s = Returns (b, s') -> at_ 0 b = version s /\ version s' = version s.
Proof.
  intros H. destruct (Bytes_returns_inv s s' b H)
    as [(HE & -> & ->)|(extra & extraData & HE & HM & Hle & -> & ->)].
  - rewrite fixedHeader_eq. split; reflexivity.
  - split; reflexivity.
Qed.

(** C4. The fixed region [Bytes] returns: byte 0 is the version, byte 1 the
    byte of the replica placement, bytes 2-3 the two bytes of the TTL, bytes
    4-5 the compact revision and bytes 6-7 the length of the serialized
    extension that follows, both as 16-bit integers; bytes 6-7 are zero
    without extension.  The super block with version 2, replica-placement
    byte 0, TTL bytes 0 0, compact revision 5 and no extension encodes to
    2 0 0 0, the two bytes of 5, 0 0. *)
Theorem C4_fixed_region_layout :
  (forall (s s' : SuperBlock) (b : list byte),
      Bytes s = Returns (b, s') ->
      at_ 0 b = version s /\
      at_ 1 b = Byte (ReplicaPlacement_ s) /\
      (at_ 2 b, at_ 3 b) = ToBytes (Ttl s) /\
      firstn 2 (skipn 4 b) = Uint16toBytes order (CompactRevision s) /\
      firstn 2 (skipn 6 b) = Uint16toBytes order (Z.of_nat (List.length (skipn 8 b))) /\
      (Extra s = None -> firstn 2 (skipn 6 b) = [x00; x00] /\ skipn 8 b = []) /\
      (Extra s <> None -> firstn 2 (skipn 6 b) = Uint16toBytes order (extraSize s')))
  /\
  (forall (rp : ReplicaPlacement) (ttl : TTL) (n : Z),
      Byte rp = x00 -> ToBytes ttl = (x00, x00) ->
      Bytes (mkSuperBlock Version2 rp ttl 5 None n) =
      Returns ([x02; x00; x00; x00] ++ Uint16toBytes order 5 ++ [x00; x00],
               mkSuperBlock Version2 rp ttl 5 None n)).
Proof.
  split.
  - intros s s' b H. destruct (Bytes_returns_inv s s' b H)
      as [(HE & -> & ->)|(extra & extraData & HE & HM & Hle & -> & ->)].
    + rewrite fixedHeader_eq. destruct (ToBytes (Ttl s)) as [t0 t1].
      rewrite <- (Uint16toBytes_0 order).
      destruct order; cbn; repeat split; auto; congruence.
    + destruct (ToBytes (Ttl s)) as [t0 t1].
      destruct order; cbn; repeat split; auto; congruence.
  - intros rp ttl n Hrp Httl. rewrite Bytes_no_extra by reflexivity.
    rewrite fixedHeader_eq. cbn [version ReplicaPlacement_ Ttl CompactRevision].
    rewrite Hrp, Httl. reflexivity.
Qed.

(** C5. An extension that serializes to exactly 65534 bytes is encoded:
    [Bytes] returns the fixed region with 65534 in bytes 6-7 followed by the
    whole extension.  An extension that serializes to more ends the call
    with the fatal "extra size is bigger" report, which is not the one of a
    failed marshal, and no bytes are returned. *)
Theorem C5_oversize_boundary (s : SuperBlock) (extra : SuperBlockExtra)
    (extraData : list byte) :
  Extra s = Some extra ->
  Marshal extra = Ok extraData ->
  (Z.of_nat (List.length extraData) = 65534 ->
   exists b s',
     Bytes s = Returns (b, s') /\
     Z.of_nat (List.length b) = 8 + 65534 /\
     firstn 2 (skipn 6 b) = Uint16toBytes order 65534 /\
     skipn 8 b = extraData /\
     extraSize s' = 65534)
  /\
  (65534 < Z.of_nat (List.length extraData) ->
   Bytes s = Exits (FatalExtraTooBig (Z.of_nat (List.length extraData))) /\
   (forall r, Bytes s <> Returns r) /\
   (forall e, Bytes s <> Exits (FatalCannotMarshal e))).
Proof.
  intros HE HM. split.
  - intros Hlen.
    pose proof (Bytes_extra s extra extraData HE HM ltac:(lia)) as HB.
    eexists _, _. split; [exact HB|].
    rewrite Hlen. repeat split.
    + rewrite !length_app, !Uint16toBytes_length. cbn [List.length]. lia.
    + destruct order; reflexivity.
    + destruct order; reflexivity.
  - intros Hgt. rewrite (Bytes_too_big s extra extraData HE HM Hgt).
    repeat split; intros; discriminate.
Qed.

End Encoder.

(** ** The decoder *)

Section Decoder.
Context {C : Collaborators}.

(** Decoding a fixed region whose bytes 6-7 are zero. *)
Lemma Decodes_fixed_region (v : Version) (rp : ReplicaPlacement) (ttl : TTL)
    (compactRevision : Z) :
  NewReplicaPlacementFromByte (Byte rp) = Ok rp ->
  LoadTTLFromBytes (ToBytes ttl) = ttl ->
  0 <= compactRevision < 65536 ->
  Decodes
    ([v; Byte rp; fst (ToBytes ttl); snd (ToBytes ttl)]
       ++ Uint16toBytes order compactRevision ++ [x00; x00])
    (mkSuperBlock v rp ttl compactRevision None 0).
Proof.
  intros Hrp Httl Hcr f Hd Hs Hr.
  pose proof (BytesToUint16_Uint16toBytes order compactRevision) as Hrt.
  rewrite Z.mod_small in Hrt by lia.
  pose proof (BytesToUint16_Uint16toBytes order 0) as Hz.
  rewrite Uint16toBytes_0 in Hz. change (0 mod 65536) with 0 in Hz.
  destruct f as [name d off sf kf rf wf]. cbn in Hd, Hs, Hr. subst d kf rf.
  unfold ReadSuperBlock, Seek, Read, make, _SuperBlockSize.
  destruct (Uint16toBytes order compactRevision) as [|c0 [|c1 [|]]] eqn:HU;
    try (pose proof (Uint16toBytes_length order compactRevision) as HL;
         rewrite HU in HL; discriminate).
  cbn -[BytesToUint16 Z.gtb].
  rewrite Hrp. cbn -[BytesToUint16 Z.gtb].
  rewrite Hrt, Hz. cbn.
  rewrite <- surjective_pairing, Httl. reflexivity.
Qed.

(** C1 (amended). A super block without extension, whose replica placement
    and TTL their codecs decode back from their bytes and whose compact
    revision is a 16-bit value, round-trips whatever its version: the bytes
    [Bytes] returns decode to it, with [extraSize] 0.  A super block whose
    extension serializes to no byte decodes to the same super block without
    extension. *)
Theorem C1_round_trip_without_extension (h : SuperBlock) :
  NewReplicaPlacementFromByte (Byte (ReplicaPlacement_ h)) = Ok (ReplicaPlacement_ h) ->
  LoadTTLFromBytes (ToBytes (Ttl h)) = Ttl h ->
  0 <= CompactRevision h < 65536 ->
  (Extra h = None -> RoundTrip h) /\
  (forall extra : SuperBlockExtra,
      Extra h = Some extra -> Marshal extra = Ok [] ->
      exists b h',
        Bytes h = Returns (b, h') /\
        Decodes b (set_Extra (set_extraSize h 0) None)).
Proof.
  intros Hrp Httl Hcr.
  pose proof (Decodes_fixed_region (version h) _ _ _ Hrp Httl Hcr) as HD.
  split.
  - intros HE. exists (fixedHeader h), h. split; [apply Bytes_no_extra, HE|].
    rewrite fixedHeader_eq at 2. rewrite fixedHeader_eq.
    replace (set_extraSize h _) with
      (mkSuperBlock (version h) (ReplicaPlacement_ h) (Ttl h) (CompactRevision h) None 0).
    + exact HD.
    + unfold set_extraSize. rewrite HE. destruct order; reflexivity.
  - intros extra HE HM. eexists _, _.
    split; [apply (Bytes_extra h extra [] HE HM); cbn; lia|].
    cbn [List.length Z.of_nat]. rewrite Uint16toBytes_0, app_nil_r. exact HD.
Qed.

(** What [ReadSuperBlock] gives [proto.Unmarshal]: when it returns a super
    block with an extension, the extension is the one unmarshalled from
    [extraSize] zero bytes, and [extraSize] is what bytes 6-7 of the file
    say. *)
Lemma ReadSuperBlock_extra (f f' : File) (sb : SuperBlock) (tr : list Event) :
  ReadSuperBlock f = (Ok sb, f', tr) ->
  extraSize sb > 0 ->
  exists extra,
    Extra sb = Some extra /\
    Unmarshal (make (Z.to_nat (extraSize sb))) = Ok extra.
Proof.
  unfold ReadSuperBlock. destruct (Seek f 0) as [[e|] f1]; [discriminate|].
  destruct (Read f1 _) as [[got [e|]] f2]; [discriminate|].
  destruct (NewReplicaPlacementFromByte _) as [rp|e]; [|discriminate].
  set (n := BytesToUint16 order (firstn 2 (skipn 6 _))).
  destruct (n >? 0) eqn:G.
  - destruct (Unmarshal (make (Z.to_nat n))) as [extra|e] eqn:HU; [|discriminate].
    intros H _. injection H as <- _ _. exists extra. split; [reflexivity|exact HU].
  - intros H Hpos. injection H as <- _ _. cbn in Hpos. lia.
Qed.

(** The calls [ReadSuperBlock] makes on the file: one seek and at most one
    read, of eight bytes. *)
Lemma ReadSuperBlock_calls (f : File) :
  let tr := snd (ReadSuperBlock f) in
  tr = [EvSeek (Name f) 0] \/ tr = [EvSeek (Name f) 0; EvRead (Name f) 8].
Proof.
  unfold ReadSuperBlock. destruct (Seek f 0) as [[e|] f1]; [left; reflexivity|].
  destruct (Read f1 _) as [[got [e|]] f2]; [right; reflexivity|].
  destruct (NewReplicaPlacementFromByte _) as [rp|e]; [|right; reflexivity].
  destruct (_ >? 0); [|right; reflexivity].
  destruct (Unmarshal _); right; reflexivity.
Qed.

(** A file without content: the read reports the end of the file. *)
Lemma ReadSuperBlock_empty (f : File) :
  data f = [] -> seekFault f = None -> readFault f = None ->
  fst (fst (ReadSuperBlock f)) = Err (ErrCannotReadSuperBlock (Name f) ErrEOF).
Proof.
  destruct f as [name d off sf kf rf wf]. cbn. intros -> -> ->. reflexivity.
Qed.

(** No codec saves the round trip of non-empty extensions: of two super
    blocks whose extensions differ and serialize to the same number of
    bytes, above zero, at most one round-trips. *)
Lemma RoundTrip_same_length (h1 h2 : SuperBlock) (x1 x2 : SuperBlockExtra)
    (d1 d2 : list byte) :
  Extra h1 = Some x1 -> Extra h2 = Some x2 ->
  Marshal x1 = Ok d1 -> Marshal x2 = Ok d2 ->
  List.length d1 = List.length d2 -> d1 <> [] ->
  RoundTrip h1 -> RoundTrip h2 -> x1 = x2.
Proof.
  intros HE1 HE2 HM1 HM2 Hlen Hne R1 R2.
  assert (Hx : forall h x d,
             Extra h = Some x -> Marshal x = Ok d -> d <> [] -> RoundTrip h ->
             Unmarshal (make (List.length d)) = Ok x).
  { intros h x d HE HM Hd (b & h' & HB & HD).
    destruct (Bytes_returns_inv h h' b HB)
      as [(HE' & -> & ->)|(x' & d' & HE' & HM' & Hle & -> & ->)]; [congruence|].
    assert (x' = x) by congruence. subst x'.
    assert (d' = d) by congruence. subst d'.
    replace (List.length (skipn 8 _)) with (List.length d) in HD
      by (destruct order; reflexivity).
    specialize (HD (mkFile EmptyString _ 0 None None None None) eq_refl eq_refl eq_refl).
    destruct (ReadSuperBlock _) as [[r f'] tr] eqn:HR. cbn in HD. subst r.
    destruct d as [|d0 d]; [congruence|].
    destruct (ReadSuperBlock_extra _ _ _ _ HR) as (extra & HX & HU);
      [cbn [extraSize set_extraSize List.length]; lia|].
    cbn [Extra set_extraSize] in HX. cbn [extraSize set_extraSize] in HU.
    rewrite Nat2Z.id in HU. congruence. }
  assert (Hne2 : d2 <> []) by (intros ->; destruct d1; [congruence|discriminate]).
  pose proof (Hx h1 x1 d1 HE1 HM1 Hne R1) as U1.
  pose proof (Hx h2 x2 d2 HE2 HM2 Hne2 R2) as U2.
  rewrite Hlen in U1. congruence.
Qed.

End Decoder.

(** ** The lifecycle *)

Section Lifecycle.
Context {C : Collaborators}.

(** The size [Stat] reports is zero exactly on a file without content. *)
Lemma Stat_size (f : File) :
  statFault f = None -> Stat f = Ok (Z.of_nat (List.length (data f))).
Proof. intros H. unfold Stat. rewrite H. reflexivity. Qed.

(** C8. On a file whose size query fails, or succeeds with a size above
    zero, [maybeWriteSuperBlock] returns the error of the query (none in
    the second case), makes no call but the query, and leaves the volume,
    hence the bytes of its file, as they were. *)
Theorem C8_existing_file_untouched (v : Volume) (f : File) :
  dataFile v = Some f ->
  statFault f <> None \/ 0 < Z.of_nat (List.length (data f)) ->
  maybeWriteSuperBlock v = (Returns (statFault f), v, [EvStat (Name f)]).
Proof.
  intros Hf H. unfold maybeWriteSuperBlock, Stat. rewrite Hf.
  destruct (statFault f) as [e|]; [reflexivity|].
  destruct H as [H|H]; [congruence|].
  destruct (Z.eqb_spec (Z.of_nat (List.length (data f))) 0); [lia|reflexivity].
Qed.

(** C10. On a file whose size is zero, the volume [maybeWriteSuperBlock]
    leaves has [CurrentVersion] as the version of its super block, however
    the call ends, and every write it attempted carries that version in
    byte 0. *)
Theorem C10_version_overwritten (v : Volume) (f : File) :
  dataFile v = Some f ->
  statFault f = None ->
  data f = [] ->
  version (SuperBlock_ (snd (fst (maybeWriteSuperBlock v)))) = CurrentVersion /\
  (forall name b, In (EvWrite name b) (snd (maybeWriteSuperBlock v)) ->
                  at_ 0 b = CurrentVersion).
Proof.
  intros Hf Hs Hd. unfold maybeWriteSuperBlock.
  rewrite Hf, (Stat_size f Hs), Hd. cbn [List.length Z.of_nat Z.eqb].
  set (sb0 := set_version (SuperBlock_ v) CurrentVersion).
  destruct (Bytes sb0) as [[b sb]|x] eqn:HB.
  - destruct (Bytes_version sb0 sb b HB) as [Hb Hv]. cbn in Hb, Hv.
    rewrite (Bytes_again sb0 sb b HB).
    destruct (Write f b) as [[e1|] f1].
    + destruct (IsPermission e1).
      * destruct (Create (Name f1)) as [f2|e2].
        -- destruct (Write f2 b) as [[e3|] f3]; cbn; (split; [exact Hv|]);
             intros name b' [H|[H|[H|[H|[]]]]]; inversion H; subst; exact Hb.
        -- cbn. split; [exact Hv|].
           intros name b' [H|[H|[H|[]]]]; inversion H; subst; exact Hb.
      * cbn. split; [exact Hv|].
        intros name b' [H|[H|[]]]; inversion H; subst; exact Hb.
    + cbn. split; [exact Hv|].
      intros name b' [H|[H|[]]]; inversion H; subst; exact Hb.
  - cbn. split; [reflexivity|]. intros name b' [H|[]]. discriminate.
Qed.

(** C7. On a file of size zero whose first write fails with a permission
    error, [maybeWriteSuperBlock] calls [os.Create] on the name of the file.
    If that fails, its error is returned after one write and [readOnly] is
    as before.  Otherwise the same bytes are written once more, to the new
    handle: if that write succeeds no error is returned and [readOnly] is
    false; if it fails its error is returned and [readOnly] is as before. *)
Theorem C7_permission_recovery (v : Volume) (f : File) (b : list byte)
    (sb : SuperBlock) (e : error) :
  dataFile v = Some f ->
  statFault f = None ->
  data f = [] ->
  Bytes (set_version (SuperBlock_ v) CurrentVersion) = Returns (b, sb) ->
  writeFault f = Some e ->
  IsPermission e = true ->
  match Create (Name f) with
  | Err e2 =>
      maybeWriteSuperBlock v =
      (Returns (Some e2), mkVolume None sb (readOnly v),
       [EvStat (Name f); EvWrite (Name f) b; EvCreate (Name f)])
  | Ok f2 =>
      match writeFault f2 with
      | None =>
          maybeWriteSuperBlock v =
          (Returns None, mkVolume (Some (snd (Write f2 b))) sb false,
           [EvStat (Name f); EvWrite (Name f) b; EvCreate (Name f); EvWrite (Name f2) b])
      | Some e3 =>
          maybeWriteSuperBlock v =
          (Returns (Some e3), mkVolume (Some f2) sb (readOnly v),
           [EvStat (Name f); EvWrite (Name f) b; EvCreate (Name f); EvWrite (Name f2) b])
      end
  end.
Proof.
  intros Hf Hs Hd HB Hw Hp. unfold maybeWriteSuperBlock.
  rewrite Hf, (Stat_size f Hs), Hd. cbn [List.length Z.of_nat Z.eqb].
  rewrite HB, (Bytes_again _ sb b HB).
  assert (HW : Write f b = (Some e, f)) by (unfold Write; rewrite Hw; reflexivity).
  rewrite HW, Hp.
  destruct (Create (Name f)) as [f2|e2]; [|reflexivity].
  unfold Write. destruct (writeFault f2) as [e3|]; reflexivity.
Qed.

End Lifecycle.

(** ** The code on concrete headers and files *)

Section Runs.
Import Doubles.
#[local] Existing Instance std.

(** C1 fails as stated: a super block of version 3 whose extension is
    present and serializes to no byte meets the conditions of the round
    trip, and decodes to a super block without extension. *)
Lemma C1_counterexample_empty_extension :
  let h := superBlock Version3 7 (Some []) 0 in
  NewReplicaPlacementFromByte (Byte (ReplicaPlacement_ h)) = Ok (ReplicaPlacement_ h) /\
  LoadTTLFromBytes (ToBytes (Ttl h)) = Ttl h /\
  (exists extra, Extra h = Some extra /\ Marshal extra = Ok []) /\
  ~ RoundTrip h.
Proof.
  cbv zeta. split; [reflexivity|]. split; [reflexivity|].
  split; [exists []; split; reflexivity|].
  intros (b & h' & HB & HD).
  vm_compute in HB. injection HB as <- <-.
  specialize (HD (fileOf "1.dat" _) eq_refl eq_refl eq_refl).
  vm_compute in HD. discriminate.
Qed.

(** The round trip is lost on an extension of one byte as well: the
    decoder unmarshals a zero byte whatever the file holds. *)
Example RoundTrip_one_byte_extension :
  ~ RoundTrip (superBlock Version3 7 (Some [x2a]) 0).
Proof.
  intros (b & h' & HB & HD).
  vm_compute in HB. injection HB as <- <-.
  specialize (HD (fileOf "1.dat" _) eq_refl eq_refl eq_refl).
  vm_compute in HD. discriminate.
Qed.

(** C2. On a file whose bytes 6-7 announce an extension of one byte,
    [ReadSuperBlock] seeks, reads eight bytes and stops at offset 8: the
    extension it returns is unmarshalled from one zero byte, whatever
    follows the fixed region in the file. *)
Theorem C2_extension_bytes_not_read (tail : list byte) :
  let f := fileOf "1.dat" ([x03; x00; x00; x00; x00; x07; x00; x01] ++ tail) in
  ReadSuperBlock f =
  (Ok (superBlock Version3 7 (Some [x00]) 1),
   set_offset f 8,
   [EvSeek "1.dat" 0; EvRead "1.dat" 8]).
Proof. reflexivity. Qed.

(** C3. At version 1 with an extension of one byte, [Bytes] returns nine
    bytes, the extension among them, while [BlockSize] of the super block
    it leaves is 8. *)
Theorem C3_version1_extension_encoded :
  let s := superBlock Version1 7 (Some [x2a]) 0 in
  Bytes s =
  Returns ([x01; x00; x00; x00; x00; x07; x00; x01; x2a],
           superBlock Version1 7 (Some [x2a]) 1) /\
  BlockSize (superBlock Version1 7 (Some [x2a]) 1) = 8.
Proof. split; reflexivity. Qed.

(** C6. A super block is encoded with an extension of one byte, the
    extension is then removed and the super block encoded again: the second
    call returns eight bytes with zero in bytes 6-7, and leaves [extraSize]
    at 1, so that [BlockSize] is 9. *)
Theorem C6_stale_extraSize :
  let s0 := superBlock Version3 7 (Some [x2a]) 0 in
  let s1 := superBlock Version3 7 (Some [x2a]) 1 in
  let s2 := set_Extra s1 None in
  Bytes s0 = Returns ([x03; x00; x00; x00; x00; x07; x00; x01; x2a], s1) /\
  Bytes s2 = Returns ([x03; x00; x00; x00; x00; x07; x00; x00], s2) /\
  extraSize s2 = 1 /\
  BlockSize s2 = 9.
Proof. repeat split; reflexivity. Qed.

(** C9. A file of one byte, whatever the byte, is decoded without error:
    the read stores the byte in front of seven zero bytes.  Only the file
    without any byte gives the read error. *)
Theorem C9_short_file_decoded (v : byte) :
  fst (fst (ReadSuperBlock (fileOf "1.dat" [v]))) = Ok (superBlock v 0 None 0) /\
  fst (fst (ReadSuperBlock (fileOf "1.dat" []))) =
  Err (ErrCannotReadSuperBlock "1.dat" ErrEOF).
Proof. split; reflexivity. Qed.

End Runs.

(** ** The theorems at concrete inputs *)

Section Witnesses.
Import Doubles.

Lemma C1_round_trip_without_extension_witness :
  RoundTrip (superBlock Version3 7 None 0) /\
  exists b h',
    Bytes (superBlock Version1 7 (Some []) 0) = Returns (b, h') /\
    Decodes b (superBlock Version1 7 None 0).
Proof.
  split.
  - apply (C1_round_trip_without_extension (superBlock Version3 7 None 0));
      [reflexivity|reflexivity|cbn; lia|reflexivity].
  - apply (C1_round_trip_without_extension (superBlock Version1 7 (Some []) 0))
      with (extra := []); [reflexivity|reflexivity|cbn; lia|reflexivity|reflexivity].
Defined.

Lemma C4_fixed_region_layout_witness :
  (let b := [x03; x00; x00; x00; x00; x07; x00; x01; x2a] in
   at_ 0 b = Version3 /\
   at_ 1 b = placementByte rp000 /\
   (at_ 2 b, at_ 3 b) = (x00, x00) /\
   firstn 2 (skipn 4 b) = Uint16toBytes BigEndian 7 /\
   firstn 2 (skipn 6 b) = Uint16toBytes BigEndian 1 /\
   (Some [x2a] = None -> firstn 2 (skipn 6 b) = [x00; x00] /\ skipn 8 b = []) /\
   (Some [x2a] <> None -> firstn 2 (skipn 6 b) = Uint16toBytes BigEndian 1)) /\
  Bytes (superBlock Version2 5 None 0) =
  Returns ([x02; x00; x00; x00; x00; x05; x00; x00], superBlock Version2 5 None 0).
Proof.
  split.
  - apply (proj1 (C4_fixed_region_layout (C := std))
             (superBlock Version3 7 (Some [x2a]) 0)
             (superBlock Version3 7 (Some [x2a]) 1)).
    reflexivity.
  - apply (proj2 (C4_fixed_region_layout (C := std)) rp000 (x00, x00) 0);
      reflexivity.
Defined.

Lemma C5_oversize_boundary_witness :
  let fits := repeat x00 (Z.to_nat 65534) in
  let large := repeat x00 (Z.to_nat 65535) in
  (exists b s',
      Bytes (superBlock Version3 7 (Some fits) 0) = Returns (b, s') /\
      Z.of_nat (List.length b) = 8 + 65534 /\
      firstn 2 (skipn 6 b) = Uint16toBytes BigEndian 65534 /\
      skipn 8 b = fits /\
      extraSize s' = 65534) /\
  Bytes (superBlock Version3 7 (Some large) 0) =
  Exits (FatalExtraTooBig (Z.of_nat (List.length large))).
Proof.
  intros fits large. split.
  - apply (proj1 (C5_oversize_boundary (C := std)
                    (superBlock Version3 7 (Some fits) 0) fits fits eq_refl eq_refl)).
    vm_compute. reflexivity.
  - apply (proj2 (C5_oversize_boundary (C := std)
                    (superBlock Version3 7 (Some large) 0) large large eq_refl eq_refl)).
    vm_compute. reflexivity.
Defined.

Lemma C8_existing_file_untouched_witness :
  let v := mkVolume (Some (fileOf "1.dat" [x01; x00; x00; x00; x00; x00; x00; x00]))
                    (superBlock Version3 7 None 0) true in
  maybeWriteSuperBlock v = (Returns None, v, [EvStat "1.dat"]).
Proof.
  intros v. apply (C8_existing_file_untouched (C := std) v _ eq_refl).
  right. reflexivity.
Defined.

Lemma C10_version_overwritten_witness :
  let denied := Err (ErrIO "disk") in
  let v := @mkVolume (recreating denied) (Some (unwritable "1.dat"))
                     (superBlockAt denied Version1 7 None 0) true in
  version (SuperBlock_ (snd (fst (maybeWriteSuperBlock v)))) = CurrentVersion /\
  (forall name b, In (EvWrite name b) (snd (maybeWriteSuperBlock v)) ->
                  at_ 0 b = CurrentVersion).
Proof.
  intros denied v.
  apply (C10_version_overwritten (C := recreating denied) v _ eq_refl);
    reflexivity.
Defined.

Lemma C7_permission_recovery_witness :
  let header := [x03; x00; x00; x00; x00; x07; x00; x00] in
  (* the recreation and the second write succeed *)
  (let fresh := Ok (created "1.dat") in
   maybeWriteSuperBlock
     (@mkVolume (recreating fresh) (Some (unwritable "1.dat"))
                (superBlockAt fresh Version1 7 None 0) true) =
   (Returns None,
    @mkVolume (recreating fresh) (Some (mkFile "1.dat" header 8 None None None None))
              (superBlockAt fresh Version3 7 None 0) false,
    [EvStat "1.dat"; EvWrite "1.dat" header; EvCreate "1.dat"; EvWrite "1.dat" header])) /\
  (* the second write is refused as well *)
  (let again := Ok (unwritable "1.dat") in
   maybeWriteSuperBlock
     (@mkVolume (recreating again) (Some (unwritable "1.dat"))
                (superBlockAt again Version1 7 None 0) true) =
   (Returns (Some ErrPermission),
    @mkVolume (recreating again) (Some (unwritable "1.dat"))
              (superBlockAt again Version3 7 None 0) true,
    [EvStat "1.dat"; EvWrite "1.dat" header; EvCreate "1.dat"; EvWrite "1.dat" header])) /\
  (* the recreation fails *)
  (let denied := Err (ErrIO "disk") in
   maybeWriteSuperBlock
     (@mkVolume (recreating denied) (Some (unwritable "1.dat"))
                (superBlockAt denied Version1 7 None 0) true) =
   (Returns (Some (ErrIO "disk")),
    @mkVolume (recreating denied) None (superBlockAt denied Version3 7 None 0) true,
    [EvStat "1.dat"; EvWrite "1.dat" header; EvCreate "1.dat"])).
Proof.
  intros header. split; [|split].
  - intros fresh.
    apply (C7_permission_recovery (C := recreating fresh)
             (@mkVolume (recreating fresh) (Some (unwritable "1.dat"))
                        (superBlockAt fresh Version1 7 None 0) true)
             (unwritable "1.dat") header (superBlockAt fresh Version3 7 None 0)
             ErrPermission); reflexivity.
  - intros again.
    apply (C7_permission_recovery (C := recreating again)
             (@mkVolume (recreating again) (Some (unwritable "1.dat"))
                        (superBlockAt again Version1 7 None 0) true)
             (unwritable "1.dat") header (superBlockAt again Version3 7 None 0)
             ErrPermission); reflexivity.
  - intros denied.
    apply (C7_permission_recovery (C := recreating denied)
             (@mkVolume (recreating denied) (Some (unwritable "1.dat"))
                        (superBlockAt denied Version1 7 None 0) true)
             (unwritable "1.dat") header (superBlockAt denied Version3 7 None 0)
             ErrPermission); reflexivity.
Defined.

End Witnesses.

(** * Further properties of the code *)

(** ** More on [Bytes] and [BlockSize] *)

Section EncoderMore.
Context {C : Collaborators}.

(** X1. [Bytes] returns exactly when there is no extension or the extension
    marshals to at most 65534 bytes; in every other case the process ends
    with one of the two fatal reports. *)
Theorem X1_Bytes_returns_iff (s : SuperBlock) :
  ((exists r, Bytes s = Returns r) <->
   (Extra s = None \/
    exists extra extraData,
      Extra s = Some extra /\ Marshal extra = Ok extraData /\
      Z.of_nat (List.length extraData) <= 65534))
  /\
  ((exists x, Bytes s = Exits x) <->
   (exists extra,
      Extra s = Some extra /\
      ((exists e, Marshal extra = Err e /\ Bytes s = Exits (FatalCannotMarshal e)) \/
       (exists extraData,
          Marshal extra = Ok extraData /\
          65534 < Z.of_nat (List.length extraData) /\
          Bytes s = Exits (FatalExtraTooBig (Z.of_nat (List.length extraData))))))).
Proof.
  split; split.
  - intros [[b s'] H]. destruct (Bytes_returns_inv s s' b H)
      as [(HE & _)|(extra & extraData & HE & HM & Hle & _)].
    + left. exact HE.
    + right. exists extra, extraData. auto.
  - intros [HE|(extra & extraData & HE & HM & Hle)].
    + eexists. apply Bytes_no_extra, HE.
    + eexists. apply (Bytes_extra s extra extraData HE HM Hle).
  - intros [x H]. destruct (Extra s) as [extra|] eqn:HE.
    + exists extra. split; [reflexivity|].
      destruct (Marshal extra) as [extraData|e] eqn:HM.
      * right. exists extraData. split; [reflexivity|].
        destruct (Z_le_gt_dec (Z.of_nat (List.length extraData)) 65534) as [Hle|Hgt].
        -- rewrite (Bytes_extra s extra extraData HE HM Hle) in H. discriminate.
        -- split; [lia|]. apply (Bytes_too_big s extra extraData HE HM). lia.
      * left. exists e. split; [reflexivity|].
        unfold Bytes. rewrite HE, HM. reflexivity.
    + rewrite (Bytes_no_extra s HE) in H. discriminate.
  - intros (extra & HE & [(e & _ & H)|(extraData & _ & _ & H)]); eexists; exact H.
Qed.

(** X2. [Bytes] changes nothing of the super block but [extraSize], changes
    nothing at all without extension, and returns between 8 and 65542
    bytes. *)
Theorem X2_Bytes_frame (s s' : SuperBlock) (b : list byte) :
  Bytes s = Returns (b, s') ->
  s' = set_extraSize s (extraSize s') /\
  (Extra s = None -> s' = s) /\
  8 <= Z.of_nat (List.length b) <= 65542.
Proof.
  intros H. destruct (Bytes_returns_inv s s' b H)
    as [(HE & -> & ->)|(extra & extraData & HE & HM & Hle & -> & ->)].
  - rewrite fixedHeader_length. repeat split; try lia. destruct s; reflexivity.
  - rewrite !length_app, !Uint16toBytes_length. cbn [List.length].
    split; [reflexivity|]. split; [congruence|lia].
Qed.

(** X3. With an extension, the bytes [Bytes] returns after the fixed region
    are the marshalled extension, [extraSize] is their number afterwards,
    whatever it was before, and bytes 6-7 hold that number. *)
Theorem X3_Bytes_extension_region (s s' : SuperBlock) (b : list byte)
    (extra : SuperBlockExtra) :
  Bytes s = Returns (b, s') ->
  Extra s = Some extra ->
  Marshal extra = Ok (skipn 8 b) /\
  extraSize s' = Z.of_nat (List.length (skipn 8 b)) /\
  extraSize s' = Z.of_nat (List.length b) - 8 /\
  BytesToUint16 order (firstn 2 (skipn 6 b)) = extraSize s'.
Proof.
  intros H HE. destruct (Bytes_returns_inv s s' b H)
    as [(HE' & _)|(extra' & extraData & HE' & HM & Hle & -> & ->)]; [congruence|].
  assert (extra' = extra) by congruence. subst extra'.
  cbn [extraSize set_extraSize].
  pose proof (BytesToUint16_Uint16toBytes order (Z.of_nat (List.length extraData))) as HU.
  rewrite Z.mod_small in HU by lia.
  replace (skipn 8 _) with extraData by (destruct order; reflexivity).
  replace (firstn 2 (skipn 6 _)) with (Uint16toBytes order (Z.of_nat (List.length extraData)))
    by (destruct order; reflexivity).
  rewrite !length_app, !Uint16toBytes_length. cbn [List.length].
  repeat split; try assumption; lia.
Qed.

(** X4. After [Bytes], [BlockSize] is the number of bytes returned when the
    version is 2 or 3 and an extension is present, and at every version
    when there is no extension and [extraSize] was zero. *)
Theorem X4_BlockSize_is_encoded_length (s s' : SuperBlock) (b : list byte) :
  Bytes s = Returns (b, s') ->
  (Extra s <> None /\ (version s = Version2 \/ version s = Version3)) \/
  (Extra s = None /\ extraSize s = 0) ->
  BlockSize s' = Z.of_nat (List.length b).
Proof.
  intros H [[HE Hv]|[HE Hz]].
  - apply (BlockSize_after_Bytes s s' b H HE Hv).
  - rewrite (Bytes_no_extra s HE) in H. injection H as <- <-.
    rewrite fixedHeader_length. unfold BlockSize. rewrite Hz.
    destruct (_ || _); reflexivity.
Qed.

(** X5. Encoding twice in a row is stable: on the super block [Bytes] left,
    [Bytes] returns the same bytes and leaves the same super block. *)
Theorem X5_Bytes_twice (s s' : SuperBlock) (b : list byte) :
  Bytes s = Returns (b, s') ->
  Bytes s' = Returns (b, s').
Proof. apply Bytes_again. Qed.

End EncoderMore.

(** ** More on [ReadSuperBlock] *)

Lemma byte_of_Z_mod (z : Z) : byte_of_Z (z mod 256) = byte_of_Z z.
Proof. unfold byte_of_Z. rewrite Z.mod_mod by lia. reflexivity. Qed.

Lemma Z_of_byte_0 (b : byte) : Z_of_byte b = 0 -> b = x00.
Proof.
  intros H. rewrite <- (byte_of_Z_of_byte b), H. reflexivity.
Qed.

Lemma Uint16toBytes_BytesToUint16 (o : ByteOrder) (a b : byte) :
  Uint16toBytes o (BytesToUint16 o [a; b]) = [a; b].
Proof.
  pose proof (Z_of_byte_range a) as Ha. pose proof (Z_of_byte_range b) as Hb.
  destruct o; unfold BytesToUint16, Uint16toBytes, at_; cbn [nth];
    rewrite Z.shiftl_mul_pow2, Z.shiftr_div_pow2 by lia; change (2 ^ 8) with 256.
  - replace ((Z_of_byte a * 256 + Z_of_byte b) / 256) with (Z_of_byte a)
      by (apply Z.div_unique with (r := Z_of_byte b); lia).
    rewrite <- (byte_of_Z_mod (_ + _)).
    replace ((Z_of_byte a * 256 + Z_of_byte b) mod 256) with (Z_of_byte b)
      by (apply Z.mod_unique with (q := Z_of_byte a); lia).
    rewrite !byte_of_Z_of_byte. reflexivity.
  - replace ((Z_of_byte b * 256 + Z_of_byte a) / 256) with (Z_of_byte b)
      by (apply Z.div_unique with (r := Z_of_byte a); lia).
    rewrite <- (byte_of_Z_mod (_ + _)).
    replace ((Z_of_byte b * 256 + Z_of_byte a) mod 256) with (Z_of_byte a)
      by (apply Z.mod_unique with (q := Z_of_byte b); lia).
    rewrite !byte_of_Z_of_byte. reflexivity.
Qed.

Lemma BytesToUint16_0 (o : ByteOrder) (a b : byte) :
  BytesToUint16 o [a; b] = 0 -> a = x00 /\ b = x00.
Proof.
  pose proof (Z_of_byte_range a) as Ha. pose proof (Z_of_byte_range b) as Hb.
  destruct o; unfold BytesToUint16, at_; cbn [nth];
    rewrite Z.shiftl_mul_pow2 by lia; change (2 ^ 8) with 256;
    intros H; split; apply Z_of_byte_0; lia.
Qed.

(** The buffer after the read: the first eight bytes of the file, with
    zeros where the file ends before. *)
Lemma header_after_read (d : list byte) :
  store 0 (firstn 8 d) (make 8) =
  [at_ 0 d; at_ 1 d; at_ 2 d; at_ 3 d; at_ 4 d; at_ 5 d; at_ 6 d; at_ 7 d].
Proof.
  do 8 (destruct d as [|? d]; [reflexivity|]). reflexivity.
Qed.

Section DecoderMore.
Context {C : Collaborators}.

(** [ReadSuperBlock] on a file with content whose seek and read succeed,
    in terms of the first eight bytes of the file. *)
Lemma ReadSuperBlock_nonempty (f : File) :
  seekFault f = None -> readFault f = None -> data f <> [] ->
  ReadSuperBlock f =
  (match NewReplicaPlacementFromByte (at_ 1 (data f)) with
   | Err e => Err (ErrCannotReadReplicaType e)
   | Ok rp =>
       let sb :=
         mkSuperBlock (at_ 0 (data f)) rp
           (LoadTTLFromBytes (at_ 2 (data f), at_ 3 (data f)))
           (BytesToUint16 order [at_ 4 (data f); at_ 5 (data f)])
           None
           (BytesToUint16 order [at_ 6 (data f); at_ 7 (data f)]) in
       if extraSize sb >? 0 then
         match Unmarshal (make (Z.to_nat (extraSize sb))) with
         | Err e => Err (ErrCannotReadExtra (Name f) e)
         | Ok extra => Ok (set_Extra sb (Some extra))
         end
       else Ok sb
   end,
   set_offset f (Nat.min 8 (List.length (data f))),
   [EvSeek (Name f) 0; EvRead (Name f) 8]).
Proof.
  destruct f as [name d off sf kf rf wf]. cbn [seekFault readFault data Name].
  intros -> -> Hd.
  unfold ReadSuperBlock, Seek, Read, set_offset.
  cbn [seekFault readFault data Name offset statFault writeFault].
  change (List.length (make _SuperBlockSize)) with 8%nat.
  change (skipn 0 d) with d.
  assert (Hlen : List.length (firstn 8 d) = Nat.min 8 (List.length d))
    by apply length_firstn.
  pose proof (header_after_read d) as HH.
  destruct (firstn 8 d) as [|g0 got] eqn:Hg.
  { destruct d; [congruence|discriminate]. }
  change (make _SuperBlockSize) with (make 8). rewrite HH.
  rewrite <- Hlen. cbn [Nat.add].
  unfold at_. cbn [nth skipn firstn extraSize].
  destruct (NewReplicaPlacementFromByte _) as [rp|e]; [|reflexivity].
  destruct (_ >? 0); [|reflexivity].
  destruct (Unmarshal _); reflexivity.
Qed.

(** A returned super block means the seek and the read succeeded on a file
    with content. *)
Lemma ReadSuperBlock_Ok_inv (f f' : File) (sb : SuperBlock) (tr : list Event) :
  ReadSuperBlock f = (Ok sb, f', tr) ->
  seekFault f = None /\ readFault f = None /\ data f <> [].
Proof.
  destruct f as [name d off sf [e|] [e'|] wf]; try discriminate.
  destruct d; [discriminate|]. intros _. repeat split; discriminate.
Qed.

(** X6. What [ReadSuperBlock] returns depends on the first eight bytes of
    the file only: two files of the same name whose seek and read succeed
    and whose first eight bytes are the same give the same super block or
    the same error, whatever their offsets and whatever follows. *)
Theorem X6_ReadSuperBlock_first_eight_bytes (f g : File) :
  Name f = Name g ->
  seekFault f = None -> seekFault g = None ->
  readFault f = None -> readFault g = None ->
  firstn 8 (data f) = firstn 8 (data g) ->
  fst (fst (ReadSuperBlock f)) = fst (fst (ReadSuperBlock g)).
Proof.
  intros Hn Hsf Hsg Hrf Hrg H8.
  assert (Hat : forall i, (i < 8)%nat -> at_ i (data f) = at_ i (data g)).
  { intros i Hi. unfold at_.
    rewrite <- (firstn_skipn 8 (data f)), <- (firstn_skipn 8 (data g)), H8.
    destruct (Nat.lt_ge_cases i (List.length (firstn 8 (data g)))) as [Hlt|Hge].
    - rewrite !app_nth1 by assumption. reflexivity.
    - assert (Hs : forall d : list byte,
                 (List.length (firstn 8 d) < 8)%nat -> skipn 8 d = []).
      { intros d Hd. apply skipn_all2. rewrite length_firstn in Hd. lia. }
      rewrite (Hs (data g)) by lia.
      rewrite (Hs (data f)) by (rewrite H8; lia).
      reflexivity. }
  destruct (data f) as [|a d] eqn:Hdf.
  - destruct (data g) as [|a' d'] eqn:Hdg; [|discriminate].
    rewrite !ReadSuperBlock_empty by assumption. rewrite Hn. reflexivity.
  - destruct (data g) as [|a' d'] eqn:Hdg; [discriminate|].
    rewrite <- Hdf in Hat. rewrite <- Hdg in Hat.
    rewrite !ReadSuperBlock_nonempty by congruence. cbn [fst].
    rewrite Hn, !Hat by lia. reflexivity.
Qed.

(** X7. [ReadSuperBlock] leaves the file as it is but for the offset of the
    handle, makes no call but one seek and at most one read, and, when it
    returns a super block, leaves the offset after the bytes read: at 8, or
    at the end of a shorter file. *)
Theorem X7_ReadSuperBlock_frame (f : File) :
  let f' := snd (fst (ReadSuperBlock f)) in
  f' = set_offset f (offset f') /\
  (forall name b, ~ In (EvWrite name b) (snd (ReadSuperBlock f))) /\
  (forall sb, fst (fst (ReadSuperBlock f)) = Ok sb ->
              offset f' = Nat.min 8 (List.length (data f))).
Proof.
  cbv zeta. split; [|split].
  - unfold ReadSuperBlock, Seek, Read.
    destruct f as [name d off sf [e|] rf wf]; cbn [seekFault]; [reflexivity|].
    cbn [set_offset readFault Name data offset statFault seekFault writeFault].
    destruct rf as [e|]; [reflexivity|].
    destruct (firstn _ _) as [|g0 got]; [reflexivity|].
    destruct (NewReplicaPlacementFromByte _) as [rp|e]; [|reflexivity].
    destruct (_ >? 0); [|reflexivity].
    destruct (Unmarshal _); reflexivity.
  - intros name b Hin.
    destruct (ReadSuperBlock_calls f) as [H|H]; cbv zeta in H; rewrite H in Hin;
      cbn in Hin; intuition discriminate.
  - intros sb H. destruct (ReadSuperBlock f) as [[r f'] tr] eqn:HR.
    cbn [fst snd] in *. subst r.
    destruct (ReadSuperBlock_Ok_inv f f' sb tr HR) as (Hs & Hr & Hd).
    rewrite (ReadSuperBlock_nonempty f Hs Hr Hd) in HR.
    injection HR as _ <- _. reflexivity.
Qed.

(** X8. When the replica-placement codec refuses byte 1 of a file with
    content (zero if the file has one byte only), [ReadSuperBlock] returns
    the "cannot read replica type" error with the error of the codec,
    whatever the other bytes are. *)
Theorem X8_ReadSuperBlock_invalid_placement (f : File) (e : error) :
  seekFault f = None -> readFault f = None -> data f <> [] ->
  NewReplicaPlacementFromByte (at_ 1 (data f)) = Err e ->
  fst (fst (ReadSuperBlock f)) = Err (ErrCannotReadReplicaType e).
Proof.
  intros Hs Hr Hd He. rewrite (ReadSuperBlock_nonempty f Hs Hr Hd), He. reflexivity.
Qed.

(** X9. A super block [ReadSuperBlock] returns has the first byte of the
    file as version, a compact revision and an [extraSize] in the 16-bit
    range, and an extension exactly when its [extraSize] is above zero;
    [extraSize] is what bytes 6-7 of the file say. *)
Theorem X9_ReadSuperBlock_well_formed (f f' : File) (sb : SuperBlock)
    (tr : list Event) :
  ReadSuperBlock f = (Ok sb, f', tr) ->
  version sb = at_ 0 (data f) /\
  NewReplicaPlacementFromByte (at_ 1 (data f)) = Ok (ReplicaPlacement_ sb) /\
  0 <= CompactRevision sb < 65536 /\
  0 <= extraSize sb < 65536 /\
  extraSize sb = BytesToUint16 order [at_ 6 (data f); at_ 7 (data f)] /\
  (Extra sb = None <-> extraSize sb = 0).
Proof.
  intros HR. destruct (ReadSuperBlock_Ok_inv f f' sb tr HR) as (Hs & Hr & Hd).
  rewrite (ReadSuperBlock_nonempty f Hs Hr Hd) in HR.
  pose proof (BytesToUint16_range order [at_ 4 (data f); at_ 5 (data f)]) as H4.
  pose proof (BytesToUint16_range order [at_ 6 (data f); at_ 7 (data f)]) as H6.
  destruct (NewReplicaPlacementFromByte _) as [rp|e]; [|discriminate].
  cbv zeta in HR. cbn [extraSize] in HR.
  destruct (Z.gtb_spec (BytesToUint16 order [at_ 6 (data f); at_ 7 (data f)]) 0) as [G|G].
  - destruct (Unmarshal _) as [extra|e]; [|discriminate].
    injection HR as <- _ _. cbn. repeat split; try lia; try discriminate.
  - injection HR as <- _ _. cbn. repeat split; try lia.
Qed.

(** X10. Encoding what was decoded gives the header back: when
    [ReadSuperBlock] returns a super block without extension on which the
    replica-placement and TTL codecs give again the bytes they were decoded
    from, [Bytes] returns the eight bytes of the header that was read and
    leaves the super block as it is. *)
Theorem X10_Bytes_of_ReadSuperBlock (f f' : File) (sb : SuperBlock)
    (tr : list Event) :
  ReadSuperBlock f = (Ok sb, f', tr) ->
  extraSize sb = 0 ->
  Byte (ReplicaPlacement_ sb) = at_ 1 (data f) ->
  ToBytes (Ttl sb) = (at_ 2 (data f), at_ 3 (data f)) ->
  Bytes sb =
  Returns ([at_ 0 (data f); at_ 1 (data f); at_ 2 (data f); at_ 3 (data f);
            at_ 4 (data f); at_ 5 (data f); at_ 6 (data f); at_ 7 (data f)], sb).
Proof.
  intros HR Hz Hrp Httl.
  destruct (ReadSuperBlock_Ok_inv f f' sb tr HR) as (Hs & Hr & Hd).
  rewrite (ReadSuperBlock_nonempty f Hs Hr Hd) in HR.
  destruct (NewReplicaPlacementFromByte _) as [rp|e]; [|discriminate].
  cbv zeta in HR. cbn [extraSize] in HR.
  destruct (Z.gtb_spec (BytesToUint16 order [at_ 6 (data f); at_ 7 (data f)]) 0) as [G|G].
  - destruct (Unmarshal _) as [extra|e]; [|discriminate].
    injection HR as <- _ _. cbn in Hz. lia.
  - injection HR as <- _ _. cbn in Hz, Hrp, Httl.
    destruct (BytesToUint16_0 order _ _ Hz) as [H6 H7].
    rewrite Bytes_no_extra by reflexivity. rewrite fixedHeader_eq.
    cbn [version ReplicaPlacement_ Ttl CompactRevision].
    rewrite Hrp, Httl, Uint16toBytes_BytesToUint16, H6, H7. reflexivity.
Qed.

End DecoderMore.

(** ** More on [maybeWriteSuperBlock] *)

Lemma store_length_ge (off : nat) (bs buf : list byte) :
  (List.length bs <= List.length (store off bs buf))%nat.
Proof. unfold store. rewrite !length_app. lia. Qed.

(** A successful write on an empty file: zeros up to the offset of the
    handle, then the bytes. *)
Lemma Write_empty (f : File) (b : list byte) :
  data f = [] -> writeFault f = None ->
  Write f b = (None, set_data f (make (offset f) ++ b) (offset f + List.length b)%nat).
Proof.
  intros Hd Hw. unfold Write. rewrite Hw, Hd. cbn [List.length app].
  rewrite Nat.sub_0_r. unfold store, make.
  rewrite firstn_all2 by (rewrite repeat_length; lia).
  rewrite skipn_all2 by (rewrite repeat_length; lia).
  rewrite app_nil_r. reflexivity.
Qed.

(** A successful write leaves a file with content when it wrote bytes. *)
Lemma Write_nonempty (f f' : File) (b : list byte) :
  Write f b = (None, f') -> b <> [] ->
  0 < Z.of_nat (List.length (data f')) /\ statFault f' = statFault f.
Proof.
  unfold Write. destruct (writeFault f); [discriminate|].
  intros H Hb. injection H as <-. cbn [data set_data statFault].
  pose proof (store_length_ge (offset f) b
                (data f ++ make (offset f - List.length (data f)))).
  destruct b; [congruence|]. cbn [List.length] in *. split; [lia|reflexivity].
Qed.

(** A failed write leaves the handle as it was. *)
Lemma Write_failed (f f' : File) (b : list byte) (e : error) :
  Write f b = (Some e, f') -> f' = f /\ writeFault f = Some e.
Proof.
  unfold Write. destruct (writeFault f); [|discriminate].
  intros H. injection H as -> <-. split; reflexivity.
Qed.

Section LifecycleMore.
Context {C : Collaborators}.

Lemma Bytes_nonempty (s s' : SuperBlock) (b : list byte) :
  Bytes s = Returns (b, s') -> b <> [].
Proof.
  intros H Hb. pose proof (Bytes_length s s' b H) as HL. subst b.
  destruct (Bytes_returns_inv s s' [] H)
    as [(_ & Hf & _)|(_ & extraData & _ & _ & _ & Hf & _)].
  - pose proof (fixedHeader_length s) as HF. rewrite <- Hf in HF. discriminate.
  - discriminate.
Qed.

(** X11. On an empty writable file, [maybeWriteSuperBlock] makes the size
    query and one write: the file then holds the bytes of the super block
    at [CurrentVersion] (after zeros up to the offset the handle had), no
    file is created and [readOnly] is as before. *)
Theorem X11_maybeWriteSuperBlock_fresh (v : Volume) (f : File) (b : list byte)
    (sb : SuperBlock) :
  dataFile v = Some f ->
  statFault f = None ->
  data f = [] ->
  writeFault f = None ->
  Bytes (set_version (SuperBlock_ v) CurrentVersion) = Returns (b, sb) ->
  maybeWriteSuperBlock v =
  (Returns None,
   mkVolume (Some (set_data f (make (offset f) ++ b) (offset f + List.length b)%nat))
            sb (readOnly v),
   [EvStat (Name f); EvWrite (Name f) b]).
Proof.
  intros Hf Hs Hd Hw HB. unfold maybeWriteSuperBlock.
  rewrite Hf, (Stat_size f Hs), Hd. cbn [List.length Z.of_nat Z.eqb].
  rewrite HB, (Write_empty f b Hd Hw). reflexivity.
Qed.

(** X12. Write, then read: after [maybeWriteSuperBlock] on an empty file
    freshly opened, for a super block without extension whose replica
    placement and TTL their codecs decode back and whose compact revision
    is a 16-bit value, [ReadSuperBlock] on the file of the volume returns
    the super block of the volume at [CurrentVersion], with [extraSize] 0. *)
Theorem X12_write_then_read (v : Volume) (f : File) :
  dataFile v = Some f ->
  statFault f = None -> seekFault f = None -> readFault f = None ->
  writeFault f = None ->
  data f = [] -> offset f = 0%nat ->
  Extra (SuperBlock_ v) = None ->
  NewReplicaPlacementFromByte (Byte (ReplicaPlacement_ (SuperBlock_ v)))
  = Ok (ReplicaPlacement_ (SuperBlock_ v)) ->
  LoadTTLFromBytes (ToBytes (Ttl (SuperBlock_ v))) = Ttl (SuperBlock_ v) ->
  0 <= CompactRevision (SuperBlock_ v) < 65536 ->
  exists f',
    maybeWriteSuperBlock v =
    (Returns None,
     mkVolume (Some f') (set_version (SuperBlock_ v) CurrentVersion) (readOnly v),
     [EvStat (Name f);
      EvWrite (Name f) (fixedHeader (set_version (SuperBlock_ v) CurrentVersion))]) /\
    fst (fst (ReadSuperBlock f')) =
    Ok (set_extraSize (set_version (SuperBlock_ v) CurrentVersion) 0).
Proof.
  intros Hf Hs Hk Hr Hw Hd Ho HE Hrp Httl Hcr.
  set (sb := set_version (SuperBlock_ v) CurrentVersion).
  assert (HB : Bytes sb = Returns (fixedHeader sb, sb))
    by (apply Bytes_no_extra; exact HE).
  eexists. split.
  - unfold maybeWriteSuperBlock.
    rewrite Hf, (Stat_size f Hs), Hd. cbn [List.length Z.of_nat Z.eqb].
    fold sb. rewrite HB, (Write_empty f _ Hd Hw), Ho. reflexivity.
  - pose proof (Decodes_fixed_region CurrentVersion _ _ _ Hrp Httl Hcr) as HD.
    rewrite (HD (set_data f (make 0 ++ fixedHeader sb) (0 + List.length (fixedHeader sb))%nat)).
    + unfold set_extraSize, sb. cbn. rewrite HE. reflexivity.
    + cbn [data set_data make repeat app]. rewrite fixedHeader_eq. reflexivity.
    + exact Hk.
    + exact Hr.
Qed.

(** X13. A first write that fails with an error other than a permission
    error is not retried: the error is returned, no file is created, and
    the file handle and [readOnly] are as before. *)
Theorem X13_maybeWriteSuperBlock_other_error (v : Volume) (f : File)
    (b : list byte) (sb : SuperBlock) (e : error) :
  dataFile v = Some f ->
  statFault f = None ->
  data f = [] ->
  Bytes (set_version (SuperBlock_ v) CurrentVersion) = Returns (b, sb) ->
  writeFault f = Some e ->
  IsPermission e = false ->
  maybeWriteSuperBlock v =
  (Returns (Some e), mkVolume (Some f) sb (readOnly v),
   [EvStat (Name f); EvWrite (Name f) b]).
Proof.
  intros Hf Hs Hd HB Hw Hp. unfold maybeWriteSuperBlock.
  rewrite Hf, (Stat_size f Hs), Hd. cbn [List.length Z.of_nat Z.eqb].
  assert (HW : Write f b = (Some e, f)) by (unfold Write; rewrite Hw; reflexivity).
  rewrite HB, HW, Hp. reflexivity.
Qed.

(** The outcomes of [maybeWriteSuperBlock] on a volume with a file, by
    cases. *)
Lemma maybeWriteSuperBlock_cases (v : Volume) (f : File) :
  dataFile v = Some f ->
  let sb0 := set_version (SuperBlock_ v) CurrentVersion in
  let R := maybeWriteSuperBlock v in
  (* the size query failed, or the file has content *)
  (R = (Returns (statFault f), v, [EvStat (Name f)]) /\
   (statFault f <> None \/ 0 < Z.of_nat (List.length (data f)))) \/
  (statFault f = None /\ data f = [] /\
   ((* the super block cannot be encoded *)
    (exists x, Bytes sb0 = Exits x /\
               R = (Exits x, mkVolume (Some f) sb0 (readOnly v), [EvStat (Name f)])) \/
    (exists b sb,
        Bytes sb0 = Returns (b, sb) /\
        ((* the first write succeeded *)
         (exists f1, Write f b = (None, f1) /\
                     R = (Returns None, mkVolume (Some f1) sb (readOnly v),
                          [EvStat (Name f); EvWrite (Name f) b])) \/
         (* it failed otherwise than on permission *)
         (exists e, Write f b = (Some e, f) /\ IsPermission e = false /\
                    R = (Returns (Some e), mkVolume (Some f) sb (readOnly v),
                         [EvStat (Name f); EvWrite (Name f) b])) \/
         (* the file could not be created again *)
         (exists e2, Create (Name f) = Err e2 /\
                     R = (Returns (Some e2), mkVolume None sb (readOnly v),
                          [EvStat (Name f); EvWrite (Name f) b; EvCreate (Name f)])) \/
         (* the second write succeeded *)
         (exists f2 f3, Create (Name f) = Ok f2 /\ Write f2 b = (None, f3) /\
                        R = (Returns None, mkVolume (Some f3) sb false,
                             [EvStat (Name f); EvWrite (Name f) b;
                              EvCreate (Name f); EvWrite (Name f2) b])) \/
         (* the second write failed *)
         (exists f2 e3, Create (Name f) = Ok f2 /\ Write f2 b = (Some e3, f2) /\
                        R = (Returns (Some e3), mkVolume (Some f2) sb (readOnly v),
                             [EvStat (Name f); EvWrite (Name f) b;
                              EvCreate (Name f); EvWrite (Name f2) b])))))).
Proof.
  intros Hf. cbv zeta. unfold maybeWriteSuperBlock. rewrite Hf. unfold Stat.
  destruct (statFault f) as [e|] eqn:Hs.
  { left. split; [reflexivity|left; discriminate]. }
  destruct (data f) as [|d0 d] eqn:Hd.
  2:{ left. split; [reflexivity|right; cbn [List.length]; lia]. }
  right. split; [reflexivity|]. split; [reflexivity|].
  cbn [List.length Z.of_nat Z.eqb].
  destruct (Bytes (set_version (SuperBlock_ v) CurrentVersion)) as [[b sb]|x] eqn:HB.
  2:{ left. exists x. split; reflexivity. }
  right. exists b, sb. split; [reflexivity|].
  rewrite (Bytes_again _ sb b HB).
  destruct (Write f b) as [[e1|] f1] eqn:HW.
  2:{ left. exists f1. split; reflexivity. }
  destruct (Write_failed f f1 b e1 HW) as [-> _].
  destruct (IsPermission e1) eqn:Hp.
  2:{ right. left. exists e1. repeat split; assumption || reflexivity. }
  destruct (Create (Name f)) as [f2|e2].
  2:{ right. right. left. exists e2. split; reflexivity. }
  destruct (Write f2 b) as [[e3|] f3] eqn:HW2.
  - destruct (Write_failed f2 f3 b e3 HW2) as [-> _].
    right. right. right. right. exists f2, e3. repeat split; assumption || reflexivity.
  - right. right. right. left. exists f2, f3. repeat split; assumption || reflexivity.
Qed.

(** X14. Whatever [maybeWriteSuperBlock] attempts to write is the encoding
    of the super block of the volume at [CurrentVersion], and it attempts
    a write only on a file whose size query succeeded with size zero. *)
Theorem X14_writes_are_the_header (v : Volume) (name : string) (b : list byte) :
  In (EvWrite name b) (snd (maybeWriteSuperBlock v)) ->
  (exists sb, Bytes (set_version (SuperBlock_ v) CurrentVersion) = Returns (b, sb)) /\
  (exists f, dataFile v = Some f /\ statFault f = None /\ data f = []).
Proof.
  destruct (dataFile v) as [f|] eqn:Hf.
  2:{ unfold maybeWriteSuperBlock. rewrite Hf. intros []. }
  destruct (maybeWriteSuperBlock_cases v f Hf) as [[-> _]|(Hs & Hd & H)].
  { intros [H|[]]. discriminate. }
  destruct H as [(x & _ & ->)|(b' & sb & HB & H)].
  { intros [H|[]]. discriminate. }
  intros Hin. split; [|exists f; auto].
  exists sb. rewrite HB.
  assert (b = b'); [|congruence].
  destruct H as [(f1 & _ & HR)|[(e & _ & _ & HR)|[(e2 & _ & HR)
                |[(f2 & f3 & _ & _ & HR)|(f2 & e3 & _ & _ & HR)]]]];
    rewrite HR in Hin; cbn [snd In] in Hin;
    repeat (destruct Hin as [Hin|Hin]; [inversion Hin; subst; try reflexivity|]);
    try contradiction.
Qed.

(** X15. Once [maybeWriteSuperBlock] has returned without error, calling it
    again on the volume it left only queries the size of the file (as long
    as that query succeeds): nothing is written and the volume stays as it
    is. *)
Theorem X15_maybeWriteSuperBlock_again (v v' : Volume) (f' : File)
    (tr : list Event) :
  maybeWriteSuperBlock v = (Returns None, v', tr) ->
  dataFile v' = Some f' ->
  statFault f' = None ->
  maybeWriteSuperBlock v' = (Returns None, v', [EvStat (Name f')]).
Proof.
  intros HR Hf' Hs'.
  assert (Hgo : 0 < Z.of_nat (List.length (data f')) ->
                maybeWriteSuperBlock v' = (Returns None, v', [EvStat (Name f')])).
  { intros Hpos. unfold maybeWriteSuperBlock. rewrite Hf', (Stat_size f' Hs').
    destruct (Z.eqb_spec (Z.of_nat (List.length (data f'))) 0); [lia|reflexivity]. }
  destruct (dataFile v) as [f|] eqn:Hf.
  2:{ unfold maybeWriteSuperBlock in HR. rewrite Hf in HR. discriminate. }
  destruct (maybeWriteSuperBlock_cases v f Hf) as [[HR' Hc]|(Hs & Hd & H)].
  { rewrite HR in HR'. injection HR' as Hst -> _.
    assert (f' = f) by congruence. subst f'.
    destruct Hc as [Hc|Hc]; [congruence|]. apply Hgo, Hc. }
  destruct H as [(x & _ & HR')|(b & sb & HB & H)].
  { rewrite HR in HR'. discriminate. }
  pose proof (Bytes_nonempty _ _ _ HB) as Hb.
  destruct H as [(f1 & HW & HR')|[(e & _ & _ & HR')|[(e2 & _ & HR')
                |[(f2 & f3 & _ & HW & HR')|(f2 & e3 & _ & _ & HR')]]]];
    rewrite HR in HR'; try discriminate; injection HR' as -> _;
    cbn [dataFile] in Hf'; injection Hf' as ->;
    apply Hgo; eapply Write_nonempty; eassumption.
Qed.

(** X16. [maybeWriteSuperBlock] never sets [readOnly]: it leaves it as it
    was, except after a permission error on the first write, a successful
    [os.Create] and a successful second write, where it is false and no
    error is returned. *)
Theorem X16_readOnly_changes (v : Volume) :
  let '(r, v', tr) := maybeWriteSuperBlock v in
  readOnly v' = readOnly v \/
  (readOnly v' = false /\ r = Returns None /\
   exists f f2 b,
     dataFile v = Some f /\ Create (Name f) = Ok f2 /\
     tr = [EvStat (Name f); EvWrite (Name f) b; EvCreate (Name f); EvWrite (Name f2) b]).
Proof.
  destruct (dataFile v) as [f|] eqn:Hf.
  2:{ unfold maybeWriteSuperBlock. rewrite Hf. left. reflexivity. }
  destruct (maybeWriteSuperBlock_cases v f Hf) as [[-> _]|(Hs & Hd & H)].
  { left. reflexivity. }
  destruct H as [(x & _ & ->)|(b & sb & HB & H)].
  { left. reflexivity. }
  destruct H as [(f1 & _ & ->)|[(e & _ & _ & ->)|[(e2 & _ & ->)
                |[(f2 & f3 & HC & _ & ->)|(f2 & e3 & _ & _ & ->)]]]];
    try (left; reflexivity).
  right. split; [reflexivity|]. split; [reflexivity|].
  exists f, f2, b. auto.
Qed.

End LifecycleMore.

(** ** The further properties at concrete inputs *)

Section WitnessesMore.
Import Doubles.

Lemma X1_Bytes_returns_iff_witness :
  (exists r, Bytes (superBlock Version3 7 (Some [x2a]) 0) = Returns r) /\
  (exists extra,
      Some (repeat x00 (Z.to_nat 65535)) = Some extra /\
      ((exists e, @Marshal std extra = Err e /\
                  Bytes (superBlock Version3 7 (Some (repeat x00 (Z.to_nat 65535))) 0)
                  = Exits (FatalCannotMarshal e)) \/
       (exists extraData,
           @Marshal std extra = Ok extraData /\
           65534 < Z.of_nat (List.length extraData) /\
           Bytes (superBlock Version3 7 (Some (repeat x00 (Z.to_nat 65535))) 0)
           = Exits (FatalExtraTooBig (Z.of_nat (List.length extraData)))))).
Proof.
  split.
  - apply (proj1 (X1_Bytes_returns_iff (C := std) (superBlock Version3 7 (Some [x2a]) 0))).
    right. exists [x2a], [x2a]. repeat split. cbn. lia.
  - apply (proj2 (X1_Bytes_returns_iff (C := std)
                    (superBlock Version3 7 (Some (repeat x00 (Z.to_nat 65535))) 0))).
    eexists. vm_compute. reflexivity.
Defined.

Lemma X2_Bytes_frame_witness :
  let s := superBlock Version1 7 (Some [x2a]) 0 in
  let s' := superBlock Version1 7 (Some [x2a]) 1 in
  let b := [x01; x00; x00; x00; x00; x07; x00; x01; x2a] in
  s' = set_extraSize s (extraSize s') /\
  (Extra s = None -> s' = s) /\
  8 <= Z.of_nat (List.length b) <= 65542.
Proof.
  intros s s' b. apply (X2_Bytes_frame (C := std) s s' b). reflexivity.
Defined.

Lemma X3_Bytes_extension_region_witness :
  let s' := superBlock Version1 7 (Some [x2a; x2b]) 2 in
  let b := [x01; x00; x00; x00; x00; x07; x00; x02; x2a; x2b] in
  @Marshal std [x2a; x2b] = Ok (skipn 8 b) /\
  extraSize s' = Z.of_nat (List.length (skipn 8 b)) /\
  extraSize s' = Z.of_nat (List.length b) - 8 /\
  BytesToUint16 BigEndian (firstn 2 (skipn 6 b)) = extraSize s'.
Proof.
  intros s' b.
  apply (X3_Bytes_extension_region (C := std)
           (superBlock Version1 7 (Some [x2a; x2b]) 40) s' b [x2a; x2b]);
    reflexivity.
Defined.

Lemma X4_BlockSize_is_encoded_length_witness :
  BlockSize (superBlock Version2 7 (Some [x2a]) 1) = 9 /\
  BlockSize (superBlock Version1 7 None 0) = 8.
Proof.
  split.
  - apply (X4_BlockSize_is_encoded_length (C := std)
             (superBlock Version2 7 (Some [x2a]) 0)
             (superBlock Version2 7 (Some [x2a]) 1)
             [x02; x00; x00; x00; x00; x07; x00; x01; x2a] eq_refl).
    left. split; [discriminate|left; reflexivity].
  - apply (X4_BlockSize_is_encoded_length (C := std)
             (superBlock Version1 7 None 0) (superBlock Version1 7 None 0)
             [x01; x00; x00; x00; x00; x07; x00; x00] eq_refl).
    right. split; reflexivity.
Defined.

Lemma X5_Bytes_twice_witness :
  Bytes (superBlock Version3 7 (Some [x2a]) 1) =
  Returns ([x03; x00; x00; x00; x00; x07; x00; x01; x2a],
           superBlock Version3 7 (Some [x2a]) 1).
Proof.
  apply (X5_Bytes_twice (C := std) (superBlock Version3 7 (Some [x2a]) 0)).
  reflexivity.
Defined.

Lemma X6_ReadSuperBlock_first_eight_bytes_witness :
  fst (fst (ReadSuperBlock (C := std)
              (fileOf "1.dat" [x03; x00; x00; x00; x00; x07; x00; x01; x2a]))) =
  fst (fst (ReadSuperBlock (C := std)
              (mkFile "1.dat" [x03; x00; x00; x00; x00; x07; x00; x01; xff; xff] 5
                      None None None (Some ErrPermission)))).
Proof.
  apply (X6_ReadSuperBlock_first_eight_bytes (C := std)); reflexivity.
Defined.

Lemma X7_ReadSuperBlock_frame_witness :
  let f := fileOf "1.dat" [x03; x00; x00] in
  offset (snd (fst (ReadSuperBlock (C := std) f))) = 3%nat.
Proof.
  intros f.
  apply (proj2 (proj2 (X7_ReadSuperBlock_frame (C := std) f)) (superBlock Version3 0 None 0)).
  reflexivity.
Defined.

Lemma X8_ReadSuperBlock_invalid_placement_witness :
  fst (fst (ReadSuperBlock (C := std)
              (fileOf "1.dat" [x03; x03; x00; x00; x00; x07; x00; x00]))) =
  Err (ErrCannotReadReplicaType (ErrCodec "unknown replication type")).
Proof.
  apply (X8_ReadSuperBlock_invalid_placement (C := std));
    [reflexivity|reflexivity|discriminate|reflexivity].
Defined.

Lemma X9_ReadSuperBlock_well_formed_witness :
  let f := fileOf "1.dat" [x03; x00; x00; x00; x00; x07; x00; x01; x2a] in
  let sb := superBlock Version3 7 (Some [x00]) 1 in
  version sb = at_ 0 (data f) /\
  placementFromByte (at_ 1 (data f)) = Ok (ReplicaPlacement_ sb) /\
  0 <= CompactRevision sb < 65536 /\
  0 <= extraSize sb < 65536 /\
  extraSize sb = BytesToUint16 BigEndian [at_ 6 (data f); at_ 7 (data f)] /\
  (Extra sb = None <-> extraSize sb = 0).
Proof.
  intros f sb.
  apply (X9_ReadSuperBlock_well_formed (C := std) f (set_offset f 8) sb
           [EvSeek "1.dat" 0; EvRead "1.dat" 8]).
  reflexivity.
Defined.

Lemma X10_Bytes_of_ReadSuperBlock_witness :
  Bytes (superBlock Version2 5 None 0) =
  Returns ([x02; x00; x00; x00; x00; x05; x00; x00], superBlock Version2 5 None 0).
Proof.
  apply (X10_Bytes_of_ReadSuperBlock (C := std)
           (fileOf "1.dat" [x02; x00; x00; x00; x00; x05; x00; x00; xff])
           (set_offset (fileOf "1.dat" [x02; x00; x00; x00; x00; x05; x00; x00; xff]) 8)
           (superBlock Version2 5 None 0)
           [EvSeek "1.dat" 0; EvRead "1.dat" 8]); reflexivity.
Defined.

Lemma X11_maybeWriteSuperBlock_fresh_witness :
  let header := [x03; x00; x00; x00; x00; x07; x00; x01; x2a] in
  maybeWriteSuperBlock (C := std)
    (mkVolume (Some (created "1.dat")) (superBlock Version1 7 (Some [x2a]) 0) true) =
  (Returns None,
   mkVolume (Some (mkFile "1.dat" header 9 None None None None))
            (superBlock Version3 7 (Some [x2a]) 1) true,
   [EvStat "1.dat"; EvWrite "1.dat" header]).
Proof.
  intros header.
  apply (X11_maybeWriteSuperBlock_fresh (C := std)
           (mkVolume (Some (created "1.dat")) (superBlock Version1 7 (Some [x2a]) 0) true)
           (created "1.dat") header (superBlock Version3 7 (Some [x2a]) 1));
    reflexivity.
Defined.

Lemma X12_write_then_read_witness :
  let v := mkVolume (Some (created "1.dat")) (superBlock Version1 7 None 9) true in
  exists f',
    maybeWriteSuperBlock (C := std) v =
    (Returns None,
     mkVolume (Some f') (superBlock Version3 7 None 9) true,
     [EvStat "1.dat"; EvWrite "1.dat" [x03; x00; x00; x00; x00; x07; x00; x00]]) /\
    fst (fst (ReadSuperBlock f')) = Ok (superBlock Version3 7 None 0).
Proof.
  intros v.
  apply (X12_write_then_read (C := std) v (created "1.dat"));
    try reflexivity.
  cbn. lia.
Defined.

Lemma X13_maybeWriteSuperBlock_other_error_witness :
  let full := mkFile "1.dat" [] 0 None None None (Some (ErrIO "no space left on device")) in
  let header := [x03; x00; x00; x00; x00; x07; x00; x00] in
  maybeWriteSuperBlock (C := std)
    (mkVolume (Some full) (superBlock Version1 7 None 0) true) =
  (Returns (Some (ErrIO "no space left on device")),
   mkVolume (Some full) (superBlock Version3 7 None 0) true,
   [EvStat "1.dat"; EvWrite "1.dat" header]).
Proof.
  intros full header.
  apply (X13_maybeWriteSuperBlock_other_error (C := std)
           (mkVolume (Some full) (superBlock Version1 7 None 0) true)
           full header (superBlock Version3 7 None 0)
           (ErrIO "no space left on device")); reflexivity.
Defined.

Lemma X14_writes_are_the_header_witness :
  let v := mkVolume (Some (created "1.dat")) (superBlock Version1 7 None 0) true in
  let header := [x03; x00; x00; x00; x00; x07; x00; x00] in
  (exists sb, Bytes (C := std) (set_version (SuperBlock_ v) CurrentVersion)
              = Returns (header, sb)) /\
  (exists f, dataFile v = Some f /\ statFault f = None /\ data f = []).
Proof.
  intros v header.
  apply (X14_writes_are_the_header (C := std) v "1.dat" header).
  right. left. reflexivity.
Defined.

Lemma X15_maybeWriteSuperBlock_again_witness :
  let header := [x03; x00; x00; x00; x00; x07; x00; x00] in
  let f' := mkFile "1.dat" header 8 None None None None in
  let v' := mkVolume (Some f') (superBlock Version3 7 None 0) true in
  maybeWriteSuperBlock (C := std) v' = (Returns None, v', [EvStat "1.dat"]).
Proof.
  intros header f' v'.
  apply (X15_maybeWriteSuperBlock_again (C := std)
           (mkVolume (Some (created "1.dat")) (superBlock Version1 7 None 0) true)
           v' f' [EvStat "1.dat"; EvWrite "1.dat" header]); reflexivity.
Defined.

End WitnessesMore.
